(** * FarmRide: a shallow embedding of [app.py] and its contract

    [app.py] is a Flask application over three SQLAlchemy tables (users,
    drivers, rides).  Every view function is embedded as a function from
    the record store to a new store and a response, in the order and with
    the guards of the Python text.

    Modelling conventions.
    - A table is a finite map from the integer primary key to the row; the
      row record holds the remaining columns.  An entity, as the ORM hands
      it to the code, is the pair (primary key, row).
    - [request.get_json()] is a record of optional fields, [None] standing
      for an absent key.  A field that is present holds a value of the
      column's type; bodies with a JSON null or a value of another type in
      a field are outside the model.
    - A string that the code hands to [datetime.fromisoformat] carries the
      outcome of that call next to its text (see [IsoString]).
    - werkzeug's password hashing and PyJWT are external; they are the
      members of the class [Externals].  The salt drawn by
      [generate_password_hash] and the clock read by [datetime.utcnow] are
      explicit arguments.
    - [Model.query.get(id)] binds the id as an SQLite integer and raises
      for an id beyond 64 bits; [book_ride], [create_ride] and
      [delete_ride] have it so ([query_get]).  The other views look the
      id up in the table as it is: what is proved of them starts from an
      id that is a row of the store, or does not depend on the answer
      for an absent id.
    - [db.session.commit()] makes the pending changes the new store;
      [db.session.rollback()] in an [except] branch gives the store back
      as it was when the request started. *)

From Stdlib Require Import ZArith String Ascii List Lia.
From stdpp Require Import base tactics option list sorting fin_maps gmap strings.

Local Open Scope Z_scope.

(** ** Calendar values *)

(** [datetime.date]: compared field by field, as Python does. *)
Record date := Date { year : Z; month : Z; day : Z }.

(** [datetime.time] (naive: [.time()] drops the zone). *)
Record time := Time { hour : Z; minute : Z; second : Z; microsecond : Z }.

#[global] Instance date_eq_dec : EqDecision date.
Proof. solve_decision. Defined.

#[global] Instance time_eq_dec : EqDecision time.
Proof. solve_decision. Defined.

Definition date_lt (a b : date) : Prop :=
  year a < year b ∨
  (year a = year b ∧ (month a < month b ∨ (month a = month b ∧ day a < day b))).

Definition time_le (a b : time) : Prop :=
  hour a < hour b ∨
  (hour a = hour b ∧ (minute a < minute b ∨
  (minute a = minute b ∧ (second a < second b ∨
  (second a = second b ∧ microsecond a ≤ microsecond b))))).

#[global] Instance date_lt_dec a b : Decision (date_lt a b).
Proof. unfold date_lt. apply _. Defined.

#[global] Instance time_le_dec a b : Decision (time_le a b).
Proof. unfold time_le. apply _. Defined.

(** The result of [datetime.fromisoformat]: a [ValueError] with its
    message, or a datetime, of which the code keeps [.date()] or
    [.time()]. *)
Inductive isoformat :=
| ValueError (msg : string)
| Datetime (d : date) (t : time).

(** A request string that is parsed as an ISO datetime: its text, and
    what [datetime.fromisoformat] makes of that text. *)
Record IsoString := { text : string; fromisoformat : isoformat }.

(** ** Tables *)

Module User.
Record t := mk {
  username : string;
  phone_no : string;
  password_hash : string;
  full_name : string;
  village : option string;
  is_admin : bool;
  created_at : Z
}.

(** [User.to_dict]: every column but the password hash. *)
Record dict := mk_dict {
  d_user_id : Z;
  d_username : string;
  d_phone_no : string;
  d_full_name : string;
  d_village : option string;
  d_is_admin : bool;
  d_created_at : Z
}.

Definition to_dict (self : Z * t) : dict :=
  {| d_user_id := self.1;
     d_username := username self.2;
     d_phone_no := phone_no self.2;
     d_full_name := full_name self.2;
     d_village := village self.2;
     d_is_admin := is_admin self.2;
     d_created_at := created_at self.2 |}.
End User.

Module Driver.
Record t := mk {
  driver_name : string;
  phone_no : string;
  vehicle_name : string;
  vehicle_type : string;
  vehicle_id : string;
  vehicle_photo : string;
  driver_photo : string;
  is_available : bool;
  created_at : Z
}.
End Driver.

Module Ride.
Record t := mk {
  driver_id : Z;
  user_id : option Z;
  driver_name : string;
  vehicle_type : string;
  vehicle_id : string;
  date : date;
  time : time;
  start_location : string;
  destination : string;
  ride_status : string;
  cargo_type : option string;
  notes : option string;
  created_at : Z
}.
End Ride.

#[global] Instance user_eq_dec : EqDecision User.t.
Proof. solve_decision. Defined.

#[global] Instance driver_eq_dec : EqDecision Driver.t.
Proof. solve_decision. Defined.

#[global] Instance ride_eq_dec : EqDecision Ride.t.
Proof. solve_decision. Defined.

(** The database: one map per table, keyed by the primary key. *)
Record Store := {
  users : gmap Z User.t;
  drivers : gmap Z Driver.t;
  rides : gmap Z Ride.t
}.

Definition empty_store : Store := {| users := ∅; drivers := ∅; rides := ∅ |}.

(** The integer primary key SQLite gives a new row: 1 in an empty table,
    otherwise one more than the largest key in use. *)
Definition next_id {A} (table : gmap Z A) : Z :=
  match (map_to_list table).*1 with
  | [] => 1
  | k :: ks => foldr Z.max k ks + 1
  end.

(** [Model.query]: all rows, in the store's own order. *)
Definition query {A} (table : gmap Z A) : list (Z * A) := map_to_list table.

(** [query.filter_by(column=value)]. *)
Definition filter_by {A} (P : A → Prop) `{∀ x, Decision (P x)}
    (q : list (Z * A)) : list (Z * A) :=
  filter (λ e, P e.2) q.

(** [query.first()]. *)
Definition first {A} (q : list (Z * A)) : option (Z * A) := head q.

(** [query.count()]. *)
Definition count {A} (q : list (Z * A)) : nat := length q.

(** [query.limit(n)]. *)
Definition limit {A} (n : nat) (q : list (Z * A)) : list (Z * A) := take n q.

(** [query.order_by(...)] for an ordering relation [R] on entities. *)
Definition order_by {A} (R : relation (Z * A)) `{∀ x y, Decision (R x y)}
    (q : list (Z * A)) : list (Z * A) :=
  merge_sort R q.

(** ** External collaborators *)

(** The payload [login] signs into a token. *)
Record Claims := {
  claim_user_id : Z;
  claim_username : string;
  claim_is_admin : bool;
  claim_exp : Z
}.

(** What [jwt.decode] does with a token string at a given instant. *)
Inductive decoded :=
| ExpiredSignatureError
| InvalidTokenError
| Payload (data : Claims).

(** werkzeug's [generate_password_hash] (with the salt it draws made an
    argument) and [check_password_hash], and PyJWT's [encode] and [decode]
    under the application's secret key.  The one law is werkzeug's
    contract: a hash checks against the password it was made from. *)
Class Externals := {
  generate_password_hash : string → string → string;
  check_password_hash : string → string → bool;
  jwt_encode : Claims → string;
  jwt_decode : Z → string → decoded;
  check_generate_password_hash : ∀ salt password,
    check_password_hash (generate_password_hash salt password) password = true
}.

(** [timedelta(days=n)], in the unit of the clock (microseconds). *)
Definition timedelta_days (n : Z) : Z := n * 86400000000.

(** ** Requests and responses *)

Module RegisterJson.
Record t := mk {
  username : option string;
  phone_no : option string;
  password : option string;
  full_name : option string;
  village : option string;
  is_admin : option bool
}.
End RegisterJson.

Module LoginJson.
Record t := mk {
  username : option string;
  password : option string
}.
End LoginJson.

Module DriverJson.
Record t := mk {
  driver_name : option string;
  phone_no : option string;
  vehicle_name : option string;
  vehicle_type : option string;
  vehicle_id : option string;
  vehicle_photo : option string;
  driver_photo : option string;
  is_available : option bool
}.
End DriverJson.

Module RideJson.
Record t := mk {
  driver_id : option Z;
  date : option IsoString;
  time : option IsoString;
  start_location : option string;
  destination : option string;
  ride_status : option string;
  cargo_type : option string;
  notes : option string
}.
End RideJson.

(** The [stats] object of the admin dashboard. *)
Record AdminStats := {
  total_drivers : nat;
  available_drivers : nat;
  total_rides : nat;
  available_rides : nat;
  booked_rides : nat;
  completed_rides : nat
}.

(** The JSON objects the views return.  [Driver.to_dict] and
    [Ride.to_dict] list every column, so the entity itself stands for
    them. *)
Inductive Json :=
| JError (error : string)
| JMessage (message : string)
| JUser (message : string) (user : User.dict)
| JLogin (message token : string) (user : User.dict)
| JDriver (message : string) (driver : Z * Driver.t)
| JRide (message : string) (ride : Z * Ride.t)
| JRides (rides : list (Z * Ride.t)) (count : nat)
| JAdminDashboard (stats : AdminStats) (recent_rides : list (Z * Ride.t)).

(** [return jsonify(...), status]. *)
Definition Response : Type := Json * Z.

(** A view function: the store before, the store after and the response. *)
Definition View : Type := Store → Store * Response.

(** ** Exceptions *)

Inductive result (A : Type) :=
| Raise (e : string)
| Return (a : A).
Arguments Raise {A} e.
Arguments Return {A} a.

#[global] Instance result_ret : MRet result := λ A, Return.

#[global] Instance result_bind : MBind result := λ A B f m,
  match m with
  | Raise e => Raise e
  | Return a => f a
  end.

(** [try: ... except Exception as e: db.session.rollback(); return
    jsonify({'error': str(e)}), 500].  The read-only views have the same
    handler without the rollback; they do not change the store either. *)
Definition try_except (body : Store → result (Store * Response)) : View :=
  λ st,
    match body st with
    | Return r => r
    | Raise e => (st, (JError e, 500))
    end.

(** One turn of [for field in required_fields: if field not in data:
    return ... 400], followed by the use of [data[field]]. *)
Definition required {A} (st : Store) (field : string) (value : option A)
    (k : A → result (Store * Response)) : result (Store * Response) :=
  match value with
  | None => Return (st, (JError ("Missing required field: " +:+ field), 400))
  | Some v => k v
  end.

(** [datetime.fromisoformat(s).date()] and [....time()]. *)
Definition iso_date (s : IsoString) : result date :=
  match fromisoformat s with
  | ValueError msg => Raise msg
  | Datetime d _ => Return d
  end.

Definition iso_time (s : IsoString) : result time :=
  match fromisoformat s with
  | ValueError msg => Raise msg
  | Datetime _ t => Return t
  end.

(** Truth value of a query-string argument: [None] and [''] are false. *)
Definition truthy (arg : option string) : option string :=
  match arg with
  | Some s => if decide (s = "") then None else Some s
  | None => None
  end.

(** The integers SQLite stores and binds: 64 bits, signed. *)
Definition sqlite_integer (n : Z) : Prop :=
  -9223372036854775808 ≤ n ≤ 9223372036854775807.

#[global] Instance sqlite_integer_dec n : Decision (sqlite_integer n).
Proof. unfold sqlite_integer. apply _. Defined.

(** [Model.query.get(id)]: the id is bound as a parameter of the SELECT,
    and sqlite3 raises [OverflowError] for an integer it cannot store;
    otherwise the row with that primary key, if any. *)
Definition query_get {A} (table : gmap Z A) (id : Z) : result (option A) :=
  if decide (sqlite_integer id) then Return (table !! id)
  else Raise "Python int too large to convert to SQLite INTEGER".

(** ** Orderings of the ride queries *)

(** [order_by(Ride.date.desc(), Ride.time.desc())]: [a] may stand before
    [b]. *)
Definition date_time_desc (a b : Z * Ride.t) : Prop :=
  date_lt (Ride.date b.2) (Ride.date a.2) ∨
  (Ride.date a.2 = Ride.date b.2 ∧ time_le (Ride.time b.2) (Ride.time a.2)).

(** [order_by(Ride.created_at.desc())]. *)
Definition created_at_desc (a b : Z * Ride.t) : Prop :=
  Ride.created_at b.2 ≤ Ride.created_at a.2.

#[global] Instance date_time_desc_dec a b : Decision (date_time_desc a b).
Proof. unfold date_time_desc. apply _. Defined.

#[global] Instance created_at_desc_dec a b : Decision (created_at_desc a b).
Proof. unfold created_at_desc. apply _. Defined.

(** [Driver.rides]: the relationship of line 74, the rides whose foreign
    key is this driver. *)
Definition Driver_rides (driver_id : Z) (st : Store) : gmap Z Ride.t :=
  filter (λ e, Ride.driver_id e.2 = driver_id) (rides st).

(** ** The views *)

Section views.
Context `{!Externals}.

(** [register], lines 184-223. *)
Definition register (now : Z) (salt : string) (data : RegisterJson.t) : View :=
  try_except (λ st,
    required st "username" (RegisterJson.username data) (λ username,
    required st "phone_no" (RegisterJson.phone_no data) (λ phone_no,
    required st "password" (RegisterJson.password data) (λ password,
    required st "full_name" (RegisterJson.full_name data) (λ full_name,
      match first (filter_by (λ u, User.username u = username)
                             (query (users st))) with
      | Some _ => Return (st, (JError "Username already exists", 409))
      | None =>
        match first (filter_by (λ u, User.phone_no u = phone_no)
                               (query (users st))) with
        | Some _ => Return (st, (JError "Phone number already registered", 409))
        | None =>
          let user :=
            {| User.username := username;
               User.phone_no := phone_no;
               User.password_hash := generate_password_hash salt password;
               User.full_name := full_name;
               User.village := Some (default "" (RegisterJson.village data));
               User.is_admin := default false (RegisterJson.is_admin data);
               User.created_at := now |} in
          let user_id := next_id (users st) in
          Return ({| users := <[user_id := user]> (users st);
                     drivers := drivers st;
                     rides := rides st |},
                  (JUser "User registered successfully"
                         (User.to_dict (user_id, user)), 201))
        end
      end))))).

(** [login], lines 226-257. *)
Definition login (now : Z) (data : LoginJson.t) : View :=
  try_except (λ st,
    match LoginJson.username data, LoginJson.password data with
    | Some username, Some password =>
      match first (filter_by (λ u, User.username u = username)
                             (query (users st))) with
      | Some user =>
        if check_password_hash (User.password_hash user.2) password then
          let token :=
            jwt_encode {| claim_user_id := user.1;
                          claim_username := User.username user.2;
                          claim_is_admin := User.is_admin user.2;
                          claim_exp := now + timedelta_days 7 |} in
          Return (st, (JLogin "Login successful" token (User.to_dict user), 200))
        else Return (st, (JError "Invalid username or password", 401))
      | None => Return (st, (JError "Invalid username or password", 401))
      end
    | _, _ => Return (st, (JError "Username and password required", 400))
    end).

(** [create_driver], lines 318-357. *)
Definition create_driver (now : Z) (current_user : Z * User.t)
    (data : DriverJson.t) : View :=
  try_except (λ st,
    required st "driver_name" (DriverJson.driver_name data) (λ driver_name,
    required st "phone_no" (DriverJson.phone_no data) (λ phone_no,
    required st "vehicle_name" (DriverJson.vehicle_name data) (λ vehicle_name,
    required st "vehicle_type" (DriverJson.vehicle_type data) (λ vehicle_type,
    required st "vehicle_id" (DriverJson.vehicle_id data) (λ vehicle_id,
      match first (filter_by (λ d, Driver.vehicle_id d = vehicle_id)
                             (query (drivers st))) with
      | Some _ => Return (st, (JError "Vehicle ID already exists", 409))
      | None =>
        let driver :=
          {| Driver.driver_name := driver_name;
             Driver.phone_no := phone_no;
             Driver.vehicle_name := vehicle_name;
             Driver.vehicle_type := vehicle_type;
             Driver.vehicle_id := vehicle_id;
             Driver.vehicle_photo :=
               default "default-vehicle.jpg" (DriverJson.vehicle_photo data);
             Driver.driver_photo :=
               default "default-driver.jpg" (DriverJson.driver_photo data);
             Driver.is_available := default true (DriverJson.is_available data);
             Driver.created_at := now |} in
        let driver_id := next_id (drivers st) in
        Return ({| users := users st;
                   drivers := <[driver_id := driver]> (drivers st);
                   rides := rides st |},
                (JDriver "Driver created successfully" (driver_id, driver), 201))
      end)))))).

(** [update_driver], lines 360-397: seven guarded assignments, each
    [if 'f' in data: driver.f = data['f']]. *)
Definition update_driver (current_user : Z * User.t) (driver_id : Z)
    (data : DriverJson.t) : View :=
  try_except (λ st,
    match drivers st !! driver_id with
    | None => Return (st, (JError "Driver not found", 404))
    | Some driver =>
      let driver :=
        {| Driver.driver_name :=
             default (Driver.driver_name driver) (DriverJson.driver_name data);
           Driver.phone_no :=
             default (Driver.phone_no driver) (DriverJson.phone_no data);
           Driver.vehicle_name :=
             default (Driver.vehicle_name driver) (DriverJson.vehicle_name data);
           Driver.vehicle_type :=
             default (Driver.vehicle_type driver) (DriverJson.vehicle_type data);
           Driver.vehicle_id := Driver.vehicle_id driver;
           Driver.vehicle_photo :=
             default (Driver.vehicle_photo driver) (DriverJson.vehicle_photo data);
           Driver.driver_photo :=
             default (Driver.driver_photo driver) (DriverJson.driver_photo data);
           Driver.is_available :=
             default (Driver.is_available driver) (DriverJson.is_available data);
           Driver.created_at := Driver.created_at driver |} in
      Return ({| users := users st;
                 drivers := <[driver_id := driver]> (drivers st);
                 rides := rides st |},
              (JDriver "Driver updated successfully" (driver_id, driver), 200))
    end).

(** [delete_driver], lines 400-417.  [db.session.delete(driver)] follows
    the [cascade='all, delete-orphan'] of [Driver.rides] and deletes the
    driver's rides with the driver. *)
Definition delete_driver (current_user : Z * User.t) (driver_id : Z) : View :=
  try_except (λ st,
    match drivers st !! driver_id with
    | None => Return (st, (JError "Driver not found", 404))
    | Some driver =>
      Return ({| users := users st;
                 drivers := delete driver_id (drivers st);
                 rides := rides st ∖ Driver_rides driver_id st |},
              (JMessage "Driver deleted successfully", 200))
    end).

(** [get_rides], lines 422-450. *)
Definition get_rides (ride_status vehicle_type : option string)
    (date_filter : option IsoString) : View :=
  try_except (λ st,
    let q := query (rides st) in
    let q := match truthy ride_status with
             | Some s => filter_by (λ r, Ride.ride_status r = s) q
             | None => q
             end in
    let q := match truthy vehicle_type with
             | Some v => filter_by (λ r, Ride.vehicle_type r = v) q
             | None => q
             end in
    q ← match date_filter with
        | Some s =>
          if decide (text s = "") then Return q
          else d ← iso_date s; Return (filter_by (λ r, Ride.date r = d) q)
        | None => Return q
        end;
    let found := order_by date_time_desc q in
    Return (st, (JRides found (length found), 200))).

(** [create_ride], lines 468-511. *)
Definition create_ride (now : Z) (current_user : Z * User.t)
    (data : RideJson.t) : View :=
  try_except (λ st,
    required st "driver_id" (RideJson.driver_id data) (λ driver_id,
    required st "date" (RideJson.date data) (λ date,
    required st "time" (RideJson.time data) (λ time,
    required st "start_location" (RideJson.start_location data) (λ start_location,
    required st "destination" (RideJson.destination data) (λ destination,
      found ← query_get (drivers st) driver_id;
      match found with
      | None => Return (st, (JError "Driver not found", 404))
      | Some driver =>
        d ← iso_date date;
        t ← iso_time time;
        let ride :=
          {| Ride.driver_id := driver_id;
             Ride.user_id := None;
             Ride.driver_name := Driver.driver_name driver;
             Ride.vehicle_type := Driver.vehicle_type driver;
             Ride.vehicle_id := Driver.vehicle_id driver;
             Ride.date := d;
             Ride.time := t;
             Ride.start_location := start_location;
             Ride.destination := destination;
             Ride.ride_status := default "available" (RideJson.ride_status data);
             Ride.cargo_type := RideJson.cargo_type data;
             Ride.notes := RideJson.notes data;
             Ride.created_at := now |} in
        let ride_id := next_id (rides st) in
        Return ({| users := users st;
                   drivers := drivers st;
                   rides := <[ride_id := ride]> (rides st) |},
                (JRide "Ride created successfully" (ride_id, ride), 201))
      end)))))).

(** [update_ride], lines 514-554: guarded assignments in the order of the
    text; the two parses come first and may raise. *)
Definition update_ride (current_user : Z * User.t) (ride_id : Z)
    (data : RideJson.t) : View :=
  try_except (λ st,
    match rides st !! ride_id with
    | None => Return (st, (JError "Ride not found", 404))
    | Some ride =>
      d ← match RideJson.date data with
          | Some s => iso_date s
          | None => Return (Ride.date ride)
          end;
      t ← match RideJson.time data with
          | Some s => iso_time s
          | None => Return (Ride.time ride)
          end;
      let ride :=
        {| Ride.driver_id := Ride.driver_id ride;
           Ride.user_id :=
             match RideJson.ride_status data with
             | Some status =>
               if decide (status = "booked") then Some current_user.1
               else Ride.user_id ride
             | None => Ride.user_id ride
             end;
           Ride.driver_name := Ride.driver_name ride;
           Ride.vehicle_type := Ride.vehicle_type ride;
           Ride.vehicle_id := Ride.vehicle_id ride;
           Ride.date := d;
           Ride.time := t;
           Ride.start_location :=
             default (Ride.start_location ride) (RideJson.start_location data);
           Ride.destination :=
             default (Ride.destination ride) (RideJson.destination data);
           Ride.ride_status :=
             default (Ride.ride_status ride) (RideJson.ride_status data);
           Ride.cargo_type :=
             match RideJson.cargo_type data with
             | Some c => Some c
             | None => Ride.cargo_type ride
             end;
           Ride.notes :=
             match RideJson.notes data with
             | Some n => Some n
             | None => Ride.notes ride
             end;
           Ride.created_at := Ride.created_at ride |} in
      Return ({| users := users st;
                 drivers := drivers st;
                 rides := <[ride_id := ride]> (rides st) |},
              (JRide "Ride updated successfully" (ride_id, ride), 200))
    end).

(** [delete_ride], lines 557-574. *)
Definition delete_ride (current_user : Z * User.t) (ride_id : Z) : View :=
  try_except (λ st,
    found ← query_get (rides st) ride_id;
    match found with
    | None => Return (st, (JError "Ride not found", 404))
    | Some ride =>
      Return ({| users := users st;
                 drivers := drivers st;
                 rides := delete ride_id (rides st) |},
              (JMessage "Ride deleted successfully", 200))
    end).

(** [book_ride], lines 577-602. *)
Definition book_ride (current_user : Z * User.t) (ride_id : Z) : View :=
  try_except (λ st,
    found ← query_get (rides st) ride_id;
    match found with
    | None => Return (st, (JError "Ride not found", 404))
    | Some ride =>
      if decide (Ride.ride_status ride ≠ "available") then
        Return (st, (JError "Ride is not available for booking", 400))
      else
        let ride :=
          {| Ride.driver_id := Ride.driver_id ride;
             Ride.user_id := Some current_user.1;
             Ride.driver_name := Ride.driver_name ride;
             Ride.vehicle_type := Ride.vehicle_type ride;
             Ride.vehicle_id := Ride.vehicle_id ride;
             Ride.date := Ride.date ride;
             Ride.time := Ride.time ride;
             Ride.start_location := Ride.start_location ride;
             Ride.destination := Ride.destination ride;
             Ride.ride_status := "booked";
             Ride.cargo_type := Ride.cargo_type ride;
             Ride.notes := Ride.notes ride;
             Ride.created_at := Ride.created_at ride |} in
        Return ({| users := users st;
                   drivers := drivers st;
                   rides := <[ride_id := ride]> (rides st) |},
                (JRide "Ride booked successfully" (ride_id, ride), 200))
    end).

(** [admin_dashboard], lines 637-666. *)
Definition admin_dashboard (current_user : Z * User.t) : View :=
  try_except (λ st,
    let stats :=
      {| total_drivers := count (query (drivers st));
         available_drivers :=
           count (filter_by (λ d, Driver.is_available d = true)
                            (query (drivers st)));
         total_rides := count (query (rides st));
         available_rides :=
           count (filter_by (λ r, Ride.ride_status r = "available")
                            (query (rides st)));
         booked_rides :=
           count (filter_by (λ r, Ride.ride_status r = "booked")
                            (query (rides st)));
         completed_rides :=
           count (filter_by (λ r, Ride.ride_status r = "completed")
                            (query (rides st))) |} in
    let recent_rides :=
      limit 10 (order_by created_at_desc (query (rides st))) in
    Return (st, (JAdminDashboard stats recent_rides, 200))).

(** ** The decorators *)

(** Python's [s.split(sep)] for a one-character separator. *)
Fixpoint split (sep : ascii) (s : string) : list string :=
  match s with
  | EmptyString => [EmptyString]
  | String c rest =>
    if Ascii.eqb c sep then EmptyString :: split sep rest
    else match split sep rest with
         | word :: words => String c word :: words
         | [] => [String c EmptyString]
         end
  end.

(** [token_required], lines 131-163.  [authorization] is the request's
    [Authorization] header, if any. *)
Definition token_required (now : Z) (authorization : option string)
    (f : Z * User.t → View) : View :=
  λ st,
    match authorization with
    | None => (st, (JError "Token is missing", 401))
    | Some auth_header =>
      match split " " auth_header !! 1%nat with
      | None => (st, (JError "Invalid token format", 401))
      | Some token =>
        if decide (token = "") then (st, (JError "Token is missing", 401))
        else
          match jwt_decode now token with
          | Payload data =>
            match users st !! claim_user_id data with
            | None => (st, (JError "User not found", 401))
            | Some current_user => f (claim_user_id data, current_user) st
            end
          | ExpiredSignatureError => (st, (JError "Token has expired", 401))
          | InvalidTokenError => (st, (JError "Invalid token", 401))
          end
      end
    end.

(** [admin_required], lines 166-175. *)
Definition admin_required (now : Z) (authorization : option string)
    (f : Z * User.t → View) : View :=
  token_required now authorization (λ current_user st,
    if User.is_admin current_user.2 then f current_user st
    else (st, (JError "Admin access required", 403))).

(** ** The routes *)

(** A request to one of the routes modelled here, with the arguments the
    view reads from the URL, the query string and the JSON body. *)
Inductive Route :=
| POST_register (data : RegisterJson.t)
| POST_login (data : LoginJson.t)
| POST_drivers (data : DriverJson.t)
| PUT_drivers (driver_id : Z) (data : DriverJson.t)
| DELETE_drivers (driver_id : Z)
| GET_rides (status vehicle_type : option string) (date : option IsoString)
| POST_rides (data : RideJson.t)
| PUT_rides (ride_id : Z) (data : RideJson.t)
| DELETE_rides (ride_id : Z)
| POST_rides_book (ride_id : Z)
| GET_dashboard_admin.

Record Request := { authorization : option string; route : Route }.

(** The [@app.route] table with the decorator each view is wrapped in.
    [now] is the clock and [salt] the salt of the password hash. *)
Definition app (now : Z) (salt : string) (req : Request) : View :=
  match route req with
  | POST_register data => register now salt data
  | POST_login data => login now data
  | POST_drivers data =>
    admin_required now (authorization req) (λ u, create_driver now u data)
  | PUT_drivers driver_id data =>
    admin_required now (authorization req) (λ u, update_driver u driver_id data)
  | DELETE_drivers driver_id =>
    admin_required now (authorization req) (λ u, delete_driver u driver_id)
  | GET_rides status vehicle_type date => get_rides status vehicle_type date
  | POST_rides data =>
    admin_required now (authorization req) (λ u, create_ride now u data)
  | PUT_rides ride_id data =>
    token_required now (authorization req) (λ u, update_ride u ride_id data)
  | DELETE_rides ride_id =>
    admin_required now (authorization req) (λ u, delete_ride u ride_id)
  | POST_rides_book ride_id =>
    token_required now (authorization req) (λ u, book_ride u ride_id)
  | GET_dashboard_admin =>
    admin_required now (authorization req) admin_dashboard
  end.

(** ** The store as a state machine *)

(** The calls that can change the store, each with the user the decorator
    resolved. *)
Inductive Op :=
| Register (now : Z) (salt : string) (data : RegisterJson.t)
| CreateDriver (now : Z) (current_user : Z * User.t) (data : DriverJson.t)
| UpdateDriver (current_user : Z * User.t) (driver_id : Z) (data : DriverJson.t)
| DeleteDriver (current_user : Z * User.t) (driver_id : Z)
| CreateRide (now : Z) (current_user : Z * User.t) (data : RideJson.t)
| UpdateRide (current_user : Z * User.t) (ride_id : Z) (data : RideJson.t)
| DeleteRide (current_user : Z * User.t) (ride_id : Z)
| BookRide (current_user : Z * User.t) (ride_id : Z).

Definition run (op : Op) : View :=
  match op with
  | Register now salt data => register now salt data
  | CreateDriver now u data => create_driver now u data
  | UpdateDriver u driver_id data => update_driver u driver_id data
  | DeleteDriver u driver_id => delete_driver u driver_id
  | CreateRide now u data => create_ride now u data
  | UpdateRide u ride_id data => update_ride u ride_id data
  | DeleteRide u ride_id => delete_ride u ride_id
  | BookRide u ride_id => book_ride u ride_id
  end.

(** What [token_required] establishes: the user is a row of the store. *)
Definition authenticated (u : Z * User.t) (st : Store) : Prop :=
  users st !! u.1 = Some u.2.

(** The guard the route table puts in front of each call. *)
Definition permitted (op : Op) (st : Store) : Prop :=
  match op with
  | Register _ _ _ => True
  | UpdateRide u _ _ | BookRide u _ => authenticated u st
  | CreateDriver _ u _ | UpdateDriver u _ _ | DeleteDriver u _
  | CreateRide _ u _ | DeleteRide u _ =>
    authenticated u st ∧ User.is_admin u.2 = true
  end.

(** The stores that calls satisfying [allowed] lead to, from the empty
    tables of [db.create_all()].  The sample rows [init_db] adds to an
    empty database are rows such calls produce. *)
Inductive reachable_by (allowed : Op → Store → Prop) : Store → Prop :=
| reachable_empty : reachable_by allowed empty_store
| reachable_step st op :
    reachable_by allowed st → allowed op st →
    reachable_by allowed (run op st).1.

(** The stores the application can be in. *)
Definition reachable : Store → Prop := reachable_by permitted.

(** A sequence of calls, and the condition that each is allowed in the
    store it meets. *)
Fixpoint run_all (ops : list Op) (st : Store) : Store :=
  match ops with
  | [] => st
  | op :: ops => run_all ops (run op st).1
  end.

Fixpoint all_allowed (allowed : Op → Store → Prop) (ops : list Op)
    (st : Store) : Prop :=
  match ops with
  | [] => True
  | op :: ops => allowed op st ∧ all_allowed allowed ops (run op st).1
  end.

End views.

(** ** Concrete data *)

(** An instance of the externals that keeps the password as its own hash
    and accepts no token; it serves to run the views on concrete
    requests. *)
Definition stub_externals : Externals :=
  {| generate_password_hash := λ _ password, password;
     check_password_hash := λ pwhash password, bool_decide (pwhash = password);
     jwt_encode := claim_username;
     jwt_decode := λ _ _, InvalidTokenError;
     check_generate_password_hash := λ _ password,
       bool_decide_eq_true_2 _ eq_refl |}.

Definition admin : Z * User.t :=
  (1, {| User.username := "admin";
         User.phone_no := "9876543210";
         User.password_hash := "admin123";
         User.full_name := "Admin User";
         User.village := Some "Nashik";
         User.is_admin := true;
         User.created_at := 0 |}).

Definition ramesh : Z * User.t :=
  (2, {| User.username := "ramesh";
         User.phone_no := "9876543211";
         User.password_hash := "farmer123";
         User.full_name := "Ramesh Patil";
         User.village := Some "Trimbakeshwar";
         User.is_admin := false;
         User.created_at := 0 |}).

Definition suresh : Driver.t :=
  {| Driver.driver_name := "Suresh Jadhav";
     Driver.phone_no := "9876543220";
     Driver.vehicle_name := "John Deere 5050D";
     Driver.vehicle_type := "tractor";
     Driver.vehicle_id := "MH15-TR-1234";
     Driver.vehicle_photo := "default-vehicle.jpg";
     Driver.driver_photo := "default-driver.jpg";
     Driver.is_available := true;
     Driver.created_at := 0 |}.

Definition vikram : Driver.t :=
  {| Driver.driver_name := "Vikram Singh";
     Driver.phone_no := "9876543221";
     Driver.vehicle_name := "Tata 407";
     Driver.vehicle_type := "mini-truck";
     Driver.vehicle_id := "MH15-MT-5678";
     Driver.vehicle_photo := "default-vehicle.jpg";
     Driver.driver_photo := "default-driver.jpg";
     Driver.is_available := false;
     Driver.created_at := 0 |}.

(** A ride of [suresh] (driver 1) or [vikram] (driver 2). *)
Definition a_ride (driver_id : Z) (user_id : option Z) (d : date) (t : time)
    (status : string) (created : Z) : Ride.t :=
  let driver := if decide (driver_id = 1) then suresh else vikram in
  {| Ride.driver_id := driver_id;
     Ride.user_id := user_id;
     Ride.driver_name := Driver.driver_name driver;
     Ride.vehicle_type := Driver.vehicle_type driver;
     Ride.vehicle_id := Driver.vehicle_id driver;
     Ride.date := d;
     Ride.time := t;
     Ride.start_location := "Nashik Market";
     Ride.destination := "Trimbakeshwar";
     Ride.ride_status := status;
     Ride.cargo_type := Some "manure";
     Ride.notes := None;
     Ride.created_at := created |}.

Definition ride1 : Ride.t :=
  a_ride 1 None (Date 2024 3 2) (Time 8 0 0 0) "available" 10.

Definition ride2 : Ride.t :=
  a_ride 2 None (Date 2024 3 3) (Time 10 0 0 0) "available" 20.

Definition ride3 : Ride.t :=
  a_ride 1 (Some 2) (Date 2024 3 1) (Time 14 0 0 0) "booked" 30.

(** Two users, two drivers and three rides, after the sample data of
    [init_db]. *)
Definition sample_store : Store :=
  {| users := list_to_map [admin; ramesh];
     drivers := list_to_map [(1, suresh); (2, vikram)];
     rides := list_to_map [(1, ride1); (2, ride2); (3, ride3)] |}.

(** A patch for [update_ride] that sets the status and nothing else. *)
Definition status_patch (status : string) : RideJson.t :=
  {| RideJson.driver_id := None;
     RideJson.date := None;
     RideJson.time := None;
     RideJson.start_location := None;
     RideJson.destination := None;
     RideJson.ride_status := Some status;
     RideJson.cargo_type := None;
     RideJson.notes := None |}.

(** A patch for [update_driver] that names a new driver, a new vehicle id
    and takes the driver off the road. *)
Definition driver_patch : DriverJson.t :=
  {| DriverJson.driver_name := Some "Suresh J.";
     DriverJson.phone_no := None;
     DriverJson.vehicle_name := None;
     DriverJson.vehicle_type := None;
     DriverJson.vehicle_id := Some "MH15-MT-5678";
     DriverJson.vehicle_photo := None;
     DriverJson.driver_photo := None;
     DriverJson.is_available := Some false |}.

(** The query argument [date=2024-03-02] and what the parser makes of
    it. *)
Definition march_2 : IsoString :=
  {| text := "2024-03-02";
     fromisoformat := Datetime (Date 2024 3 2) (Time 0 0 0 0) |}.

(** Registration bodies: a farmer, the same username with another phone
    number, and a body that asks for the admin flag. *)
Definition sita : RegisterJson.t :=
  {| RegisterJson.username := Some "sita";
     RegisterJson.phone_no := Some "9876543212";
     RegisterJson.password := Some "secret";
     RegisterJson.full_name := Some "Sita Pawar";
     RegisterJson.village := None;
     RegisterJson.is_admin := None |}.

Definition sita_again : RegisterJson.t :=
  {| RegisterJson.username := Some "sita";
     RegisterJson.phone_no := Some "9876543213";
     RegisterJson.password := Some "other";
     RegisterJson.full_name := Some "Sita P.";
     RegisterJson.village := Some "Igatpuri";
     RegisterJson.is_admin := None |}.

Definition mallory : RegisterJson.t :=
  {| RegisterJson.username := Some "mallory";
     RegisterJson.phone_no := Some "9876543214";
     RegisterJson.password := Some "secret";
     RegisterJson.full_name := Some "Mallory";
     RegisterJson.village := None;
     RegisterJson.is_admin := Some true |}.

(** The bodies that create the admin, the driver and the rides of the
    sample data through the API. *)
Definition admin_body : RegisterJson.t :=
  {| RegisterJson.username := Some "admin";
     RegisterJson.phone_no := Some "9876543210";
     RegisterJson.password := Some "admin123";
     RegisterJson.full_name := Some "Admin User";
     RegisterJson.village := Some "Nashik";
     RegisterJson.is_admin := Some true |}.

Definition suresh_body : DriverJson.t :=
  {| DriverJson.driver_name := Some "Suresh Jadhav";
     DriverJson.phone_no := Some "9876543220";
     DriverJson.vehicle_name := Some "John Deere 5050D";
     DriverJson.vehicle_type := Some "tractor";
     DriverJson.vehicle_id := Some "MH15-TR-1234";
     DriverJson.vehicle_photo := None;
     DriverJson.driver_photo := None;
     DriverJson.is_available := None |}.

Definition march_2_8am : IsoString :=
  {| text := "2024-03-02T08:00:00";
     fromisoformat := Datetime (Date 2024 3 2) (Time 8 0 0 0) |}.

Definition ride_body : RideJson.t :=
  {| RideJson.driver_id := Some 1;
     RideJson.date := Some march_2;
     RideJson.time := Some march_2_8am;
     RideJson.start_location := Some "Nashik Market";
     RideJson.destination := Some "Trimbakeshwar";
     RideJson.ride_status := None;
     RideJson.cargo_type := Some "manure";
     RideJson.notes := None |}.

(** The admin registers, creates a driver and a ride, and books the
    ride. *)
Definition booking_trace : list Op :=
  [ Register 0 "salt" admin_body;
    CreateDriver 0 admin suresh_body;
    CreateRide 10 admin ride_body;
    BookRide admin 1 ].

(** The same with a second ride; then the booked ride is set back to
    'available' and the other ride to a status outside the life cycle,
    both through the generic update. *)
Definition stray_trace : list Op :=
  [ Register 0 "salt" admin_body;
    CreateDriver 0 admin suresh_body;
    CreateRide 10 admin ride_body;
    CreateRide 20 admin ride_body;
    BookRide admin 1;
    UpdateRide admin 1 (status_patch "available");
    UpdateRide admin 2 (status_patch "cancelled") ].

(** The stores the two traces lead to. *)
Definition booked_store : Store :=
  @run_all stub_externals booking_trace empty_store.

Definition stray_store : Store :=
  @run_all stub_externals stray_trace empty_store.

(** ** Properties named by the contract *)

(** Two ride rows agree on every column but the status and the booking
    user. *)
Definition same_offer (r r' : Ride.t) : Prop :=
  Ride.driver_id r' = Ride.driver_id r ∧
  Ride.driver_name r' = Ride.driver_name r ∧
  Ride.vehicle_type r' = Ride.vehicle_type r ∧
  Ride.vehicle_id r' = Ride.vehicle_id r ∧
  Ride.date r' = Ride.date r ∧
  Ride.time r' = Ride.time r ∧
  Ride.start_location r' = Ride.start_location r ∧
  Ride.destination r' = Ride.destination r ∧
  Ride.cargo_type r' = Ride.cargo_type r ∧
  Ride.notes r' = Ride.notes r ∧
  Ride.created_at r' = Ride.created_at r.

(** The [Date] and [Time] fields of a request that are present hold a
    string that [datetime.fromisoformat] accepts. *)
Definition iso_ok (field : option IsoString) : Prop :=
  ∀ s, field = Some s → ∃ d t, fromisoformat s = Datetime d t.

(** The three statuses of the ride life cycle. *)
Definition known_status (status : string) : Prop :=
  status = "available" ∨ status = "booked" ∨ status = "completed".

(** The invariants of §3 on a ride: its status is one of the three, and
    it has a booking user only when booked or completed. *)
Definition ride_ok (r : Ride.t) : Prop :=
  known_status (Ride.ride_status r) ∧
  (Ride.user_id r ≠ None →
   Ride.ride_status r = "booked" ∨ Ride.ride_status r = "completed").

Definition ride_invariant (st : Store) : Prop :=
  ∀ i r, rides st !! i = Some r → ride_ok r.

(** A call that keeps to the life cycle: a status it supplies is one of
    the three, and it does not put a ride that has a booking user back to
    'available'. *)
Definition disciplined (op : Op) (st : Store) : Prop :=
  permitted op st ∧
  match op with
  | CreateRide _ _ data =>
    ∀ status, RideJson.ride_status data = Some status → known_status status
  | UpdateRide _ ride_id data =>
    ∀ status, RideJson.ride_status data = Some status →
      known_status status ∧
      (status = "available" →
       ∀ ride, rides st !! ride_id = Some ride → Ride.user_id ride = None)
  | _ => True
  end.

(** No two drivers have the same vehicle id. *)
Definition vehicle_ids_unique (st : Store) : Prop :=
  ∀ i j di dj, drivers st !! i = Some di → drivers st !! j = Some dj →
    Driver.vehicle_id di = Driver.vehicle_id dj → i = j.



(** A registration body with all four required fields. *)
Definition complete (data : RegisterJson.t) : Prop :=
  is_Some (RegisterJson.username data) ∧
  is_Some (RegisterJson.phone_no data) ∧
  is_Some (RegisterJson.password data) ∧
  is_Some (RegisterJson.full_name data).

(** ** The views outside the contract *)

(** The [stats] object of the farmer dashboard. *)
Module Farmer.
Record stats := mk {
  total_rides : nat;
  active_rides : nat;
  completed_rides : nat
}.
End Farmer.

(** The JSON objects of the remaining views: the objects above, and the
    bare dictionaries and listings. *)
Inductive Reply :=
| RJson (j : Json)
| RUser (user : User.dict)
| RDriver (driver : Z * Driver.t)
| RRide (ride : Z * Ride.t)
| RDrivers (drivers : list (Z * Driver.t)) (count : nat)
| RFarmerDashboard (user : User.dict)
    (my_rides available_rides : list (Z * Ride.t))
    (drivers : list (Z * Driver.t)) (stats : Farmer.stats)
| RHealth (status message : string) (timestamp : Z).

Definition ReadView : Type := Store → Store * (Reply * Z).

(** The [try ... except] of these views: no rollback, the store is not
    written. *)
Definition try_except_read (body : Store → result (Store * (Reply * Z)))
    : ReadView :=
  λ st,
    match body st with
    | Return r => r
    | Raise e => (st, (RJson (JError e), 500))
    end.

(** [str.lower()] on the bytes of a string: the ASCII capitals go to
    their small letters.  Python also maps capitals outside ASCII, none
    of them to an ASCII letter of 'true', so the test
    [s.lower() == 'true'] is the same on both. *)
Definition lower_ascii (c : ascii) : ascii :=
  let n := Ascii.N_of_ascii c in
  if ((65 <=? n) && (n <=? 90))%N then Ascii.ascii_of_N (n + 32) else c.

Fixpoint lower (s : string) : string :=
  match s with
  | EmptyString => EmptyString
  | String c rest => String (lower_ascii c) (lower rest)
  end.

(** [order_by(Ride.date, Ride.time)]: ascending. *)
Definition date_time_asc (a b : Z * Ride.t) : Prop :=
  date_lt (Ride.date a.2) (Ride.date b.2) ∨
  (Ride.date a.2 = Ride.date b.2 ∧ time_le (Ride.time a.2) (Ride.time b.2)).

#[global] Instance date_time_asc_dec a b : Decision (date_time_asc a b).
Proof. unfold date_time_asc. apply _. Defined.

(** [sep.join(words)], the inverse of [split]. *)
Fixpoint join (sep : ascii) (words : list string) : string :=
  match words with
  | [] => EmptyString
  | [word] => word
  | word :: words => word +:+ String sep (join sep words)
  end.

(** The character occurs in the string. *)
Fixpoint occurs (c : ascii) (s : string) : Prop :=
  match s with
  | EmptyString => False
  | String c' rest => c' = c ∨ occurs c rest
  end.

Section read_views.
Context `{!Externals}.

(** The decorator of lines 131-163 in front of a view with any kind of
    answer; [reply] makes an answer of the decorator's own 401. *)
Definition token_required_as {B : Type} (reply : Response → B) (now : Z)
    (authorization : option string) (f : Z * User.t → Store → Store * B)
    : Store → Store * B :=
  λ st,
    match authorization with
    | None => (st, reply (JError "Token is missing", 401))
    | Some auth_header =>
      match split " " auth_header !! 1%nat with
      | None => (st, reply (JError "Invalid token format", 401))
      | Some token =>
        if decide (token = "") then (st, reply (JError "Token is missing", 401))
        else
          match jwt_decode now token with
          | Payload data =>
            match users st !! claim_user_id data with
            | None => (st, reply (JError "User not found", 401))
            | Some current_user => f (claim_user_id data, current_user) st
            end
          | ExpiredSignatureError => (st, reply (JError "Token has expired", 401))
          | InvalidTokenError => (st, reply (JError "Invalid token", 401))
          end
      end
    end.

(** [logout], lines 260-264. *)
Definition logout (current_user : Z * User.t) : ReadView :=
  λ st, (st, (RJson (JMessage "Logout successful"), 200)).

(** [get_profile], lines 267-271. *)
Definition get_profile (current_user : Z * User.t) : ReadView :=
  λ st, (st, (RUser (User.to_dict current_user), 200)).

(** [get_drivers], lines 276-300. *)
Definition get_drivers (vehicle_type is_available : option string) : ReadView :=
  try_except_read (λ st,
    let q := query (drivers st) in
    let q := match truthy vehicle_type with
             | Some v => filter_by (λ d, Driver.vehicle_type d = v) q
             | None => q
             end in
    let q := match is_available with
             | Some a =>
               filter_by (λ d, Driver.is_available d
                               = bool_decide (lower a = "true")) q
             | None => q
             end in
    Return (st, (RDrivers q (length q), 200))).

(** [get_driver], lines 303-315. *)
Definition get_driver (driver_id : Z) : ReadView :=
  try_except_read (λ st,
    match drivers st !! driver_id with
    | None => Return (st, (RJson (JError "Driver not found"), 404))
    | Some driver => Return (st, (RDriver (driver_id, driver), 200))
    end).

(** [get_ride], lines 453-465. *)
Definition get_ride (ride_id : Z) : ReadView :=
  try_except_read (λ st,
    match rides st !! ride_id with
    | None => Return (st, (RJson (JError "Ride not found"), 404))
    | Some ride => Return (st, (RRide (ride_id, ride), 200))
    end).

(** [farmer_dashboard], lines 607-634. *)
Definition farmer_dashboard (current_user : Z * User.t) : ReadView :=
  try_except_read (λ st,
    let my_rides :=
      filter_by (λ r, Ride.user_id r = Some current_user.1)
                (query (rides st)) in
    let available_rides :=
      order_by date_time_asc
        (filter_by (λ r, Ride.ride_status r = "available")
                   (query (rides st))) in
    let drivers :=
      filter_by (λ d, Driver.is_available d = true) (query (drivers st)) in
    let stats :=
      {| Farmer.total_rides := length my_rides;
         Farmer.active_rides :=
           length (filter (λ r, Ride.ride_status r.2 = "booked") my_rides);
         Farmer.completed_rides :=
           length (filter (λ r, Ride.ride_status r.2 = "completed") my_rides)
      |} in
    Return (st, (RFarmerDashboard (User.to_dict current_user) my_rides
                   available_rides drivers stats, 200))).

(** [health_check], lines 671-678. *)
Definition health_check (now : Z) : ReadView :=
  λ st, (st, (RHealth "healthy" "FarmRide API is running" now, 200)).

(** The rest of the [@app.route] table. *)
Inductive ReadRoute :=
| POST_logout
| GET_profile
| GET_drivers (vehicle_type is_available : option string)
| GET_driver (driver_id : Z)
| GET_ride (ride_id : Z)
| GET_dashboard_farmer
| GET_health.

Definition app_read (now : Z) (authorization : option string)
    (r : ReadRoute) : ReadView :=
  let reply := λ resp : Response, (RJson resp.1, resp.2) in
  match r with
  | POST_logout => token_required_as reply now authorization logout
  | GET_profile => token_required_as reply now authorization get_profile
  | GET_drivers vehicle_type is_available =>
    get_drivers vehicle_type is_available
  | GET_driver driver_id => get_driver driver_id
  | GET_ride ride_id => get_ride ride_id
  | GET_dashboard_farmer =>
    token_required_as reply now authorization farmer_dashboard
  | GET_health => health_check now
  end.

End read_views.

(** ** Further properties of the store *)

(** No two users share a username or a phone number. *)
Definition users_unique (st : Store) : Prop :=
  ∀ i j ui uj, users st !! i = Some ui → users st !! j = Some uj →
    User.username ui = User.username uj ∨ User.phone_no ui = User.phone_no uj →
    i = j.

(** Every ride belongs to a driver of the store and carries that driver's
    vehicle id. *)
Definition rides_refer (st : Store) : Prop :=
  ∀ i r, rides st !! i = Some r →
    ∃ d, drivers st !! Ride.driver_id r = Some d ∧
         Ride.vehicle_id r = Driver.vehicle_id d.

(** Every booking user is a user of the store. *)
Definition bookings_refer (st : Store) : Prop :=
  ∀ i r u, rides st !! i = Some r → Ride.user_id r = Some u →
    is_Some (users st !! u).

(** Two ride rows agree on the columns no update writes. *)
Definition same_origin (r r' : Ride.t) : Prop :=
  Ride.driver_id r' = Ride.driver_id r ∧
  Ride.driver_name r' = Ride.driver_name r ∧
  Ride.vehicle_type r' = Ride.vehicle_type r ∧
  Ride.vehicle_id r' = Ride.vehicle_id r ∧
  Ride.created_at r' = Ride.created_at r.


(** The header carries, as its second word, a token that decodes at
    [now] to the id of the user [u] of the store. *)
Definition resolves `{!Externals} (now : Z) (authorization : option string)
    (st : Store) (u : Z * User.t) : Prop :=
  ∃ auth_header token data,
    authorization = Some auth_header ∧
    split " " auth_header !! 1%nat = Some token ∧
    token ≠ "" ∧
    jwt_decode now token = Payload data ∧
    u.1 = claim_user_id data ∧
    users st !! u.1 = Some u.2.

(** An instance of the externals with two tokens, one for each user of
    [sample_store], valid until the instant 1000. *)
Definition badge_externals : Externals :=
  {| generate_password_hash := λ _ password, password;
     check_password_hash := λ pwhash password, bool_decide (pwhash = password);
     jwt_encode := λ claims, "token-of-" +:+ claim_username claims;
     jwt_decode := λ now token,
       if decide (token = "token-of-admin") then
         if decide (1000 < now) then ExpiredSignatureError
         else Payload {| claim_user_id := 1; claim_username := "admin";
                         claim_is_admin := true; claim_exp := 1000 |}
       else if decide (token = "token-of-ramesh") then
         if decide (1000 < now) then ExpiredSignatureError
         else Payload {| claim_user_id := 2; claim_username := "ramesh";
                         claim_is_admin := false; claim_exp := 1000 |}
       else InvalidTokenError;
     check_generate_password_hash := λ _ password,
       bool_decide_eq_true_2 _ eq_refl |}.

(** A second driver, a farmer as [register] stores her, and a trace in
    which the admin sets up two drivers and two rides and the farmer
    books the first ride. *)
Definition vikram_body : DriverJson.t :=
  {| DriverJson.driver_name := Some "Vikram Singh";
     DriverJson.phone_no := Some "9876543221";
     DriverJson.vehicle_name := Some "Tata 407";
     DriverJson.vehicle_type := Some "mini-truck";
     DriverJson.vehicle_id := Some "MH15-MT-5678";
     DriverJson.vehicle_photo := None;
     DriverJson.driver_photo := None;
     DriverJson.is_available := Some false |}.

Definition sita_user : Z * User.t :=
  (2, {| User.username := "sita";
         User.phone_no := "9876543212";
         User.password_hash := "secret";
         User.full_name := "Sita Pawar";
         User.village := Some "";
         User.is_admin := false;
         User.created_at := 5 |}).

Definition market_trace : list Op :=
  [ Register 0 "salt" admin_body;
    Register 5 "salt" sita;
    CreateDriver 0 admin suresh_body;
    CreateDriver 0 admin vikram_body;
    CreateRide 10 admin ride_body;
    CreateRide 20 admin ride_body;
    BookRide sita_user 1 ].

Definition market_store : Store :=
  @run_all stub_externals market_trace empty_store.

(** Requests with the farmer's token and with a token nobody issued. *)
Definition farmer_deletes_driver : Request :=
  {| authorization := Some "Bearer token-of-ramesh";
     route := DELETE_drivers 1 |}.

Definition stranger_deletes_driver : Request :=
  {| authorization := Some "Bearer forged";
     route := DELETE_drivers 1 |}.

(** ** Lemmas on keys and queries *)

Lemma foldr_max_ge (k : Z) (ks : list Z) (x : Z) :
  x ∈ k :: ks → x ≤ foldr Z.max k ks.
Proof.
  induction ks as [|y ks IH]; simpl.
  - intros Hx. apply list_elem_of_singleton in Hx. lia.
  - rewrite !elem_of_cons. intros [-> | [-> | Hx]].
    + assert (k ≤ foldr Z.max k ks) by (apply IH, elem_of_cons; auto). lia.
    + lia.
    + assert (x ≤ foldr Z.max k ks) by (apply IH, elem_of_cons; auto). lia.
Qed.

(** The key of a new row is not in use. *)
Lemma next_id_fresh {A} (table : gmap Z A) : table !! next_id table = None.
Proof.
  destruct (table !! next_id table) as [x|] eqn:Hx; [exfalso | done].
  apply elem_of_map_to_list in Hx.
  assert (next_id table ∈ (map_to_list table).*1) as Hin.
  { apply list_elem_of_fmap. by exists (next_id table, x). }
  unfold next_id in Hin at 1. unfold next_id in Hx.
  destruct ((map_to_list table).*1) as [|k ks]; [by apply elem_of_nil in Hin|].
  apply foldr_max_ge in Hin. lia.
Qed.

Section queries.
Context {A : Type} (P : A → Prop) `{∀ x, Decision (P x)}.

Lemma elem_of_filter_by (table : gmap Z A) (e : Z * A) :
  e ∈ filter_by P (query table) ↔ table !! e.1 = Some e.2 ∧ P e.2.
Proof.
  unfold filter_by, query. rewrite list_elem_of_filter.
  destruct e as [i x]. rewrite elem_of_map_to_list. simpl. tauto.
Qed.

Lemma first_filter_by_None (table : gmap Z A) :
  first (filter_by P (query table)) = None ↔
  ∀ i x, table !! i = Some x → ¬ P x.
Proof.
  unfold first. rewrite head_None. split.
  - intros Hnil i x Hix HP.
    assert ((i, x) ∈ filter_by P (query table)) as Hin
      by (by apply elem_of_filter_by).
    rewrite Hnil in Hin. by apply elem_of_nil in Hin.
  - intros Hno. destruct (filter_by P (query table)) as [|e l] eqn:E; [done|].
    assert (e ∈ filter_by P (query table)) as Hin
      by (rewrite E; apply list_elem_of_here).
    apply elem_of_filter_by in Hin as [Hl HP]. by destruct (Hno _ _ Hl).
Qed.

Lemma first_filter_by_Some (table : gmap Z A) (e : Z * A) :
  first (filter_by P (query table)) = Some e →
  table !! e.1 = Some e.2 ∧ P e.2.
Proof.
  unfold first. intros Hhead. apply elem_of_filter_by.
  destruct (filter_by P (query table)) as [|e' l]; simplify_eq/=.
  apply list_elem_of_here.
Qed.

(** [count] of a filtered query is the size of the filtered table. *)
Lemma count_filter_by (table : gmap Z A) :
  count (filter_by P (query table)) = size (filter (λ e, P e.2) table).
Proof.
  unfold count, filter_by, query.
  rewrite <- length_map_to_list. apply Permutation_length.
  apply NoDup_Permutation.
  - apply NoDup_filter, NoDup_map_to_list.
  - apply NoDup_map_to_list.
  - intros [i x]. rewrite list_elem_of_filter, !elem_of_map_to_list.
    rewrite map_lookup_filter_Some. simpl. tauto.
Qed.

End queries.

(** ** Booking *)

(** The lookup by primary key of an id SQLite can bind, and of one it
    cannot. *)
Lemma query_get_bound {A} (table : gmap Z A) (id : Z) :
  sqlite_integer id → query_get table id = Return (table !! id).
Proof. intros Hid. unfold query_get. by rewrite decide_True. Qed.

Lemma query_get_overflow {A} (table : gmap Z A) (id : Z) :
  ¬ sqlite_integer id →
  query_get table id = Raise "Python int too large to convert to SQLite INTEGER".
Proof. intros Hid. unfold query_get. by rewrite decide_False. Qed.

(** C1, as the code has it.  For a ride id that SQLite can bind (64 bits,
    signed), [book_ride] answers 404 "Ride not found" when the id is not
    a ride, 400 "Ride is not available for booking" when the ride's
    status is not 'available', and otherwise commits one update that sets
    the status to 'booked' and the booking user to the caller, leaving
    the rest of the store alone; any further [book_ride] on that ride is
    then refused with the 400.  For an id beyond that range the lookup
    raises, and the answer is 500 with the store as it was. *)
Theorem book_ride_contract (current_user : Z * User.t) (ride_id : Z)
    (st : Store) :
  (¬ sqlite_integer ride_id →
   book_ride current_user ride_id st
   = (st, (JError "Python int too large to convert to SQLite INTEGER", 500))) ∧
  (sqlite_integer ride_id →
   (rides st !! ride_id = None →
    book_ride current_user ride_id st
    = (st, (JError "Ride not found", 404))) ∧
   (∀ ride, rides st !! ride_id = Some ride →
    Ride.ride_status ride ≠ "available" →
    book_ride current_user ride_id st
    = (st, (JError "Ride is not available for booking", 400))) ∧
   (∀ ride, rides st !! ride_id = Some ride →
    Ride.ride_status ride = "available" →
    ∃ booked st',
      book_ride current_user ride_id st
      = (st', (JRide "Ride booked successfully" (ride_id, booked), 200)) ∧
      Ride.ride_status booked = "booked" ∧
      Ride.user_id booked = Some current_user.1 ∧
      same_offer ride booked ∧
      rides st' = <[ride_id := booked]> (rides st) ∧
      users st' = users st ∧
      drivers st' = drivers st ∧
      ∀ caller, book_ride caller ride_id st'
                = (st', (JError "Ride is not available for booking", 400)))).
Proof.
  unfold book_ride, try_except. split.
  - intros Hid. by rewrite query_get_overflow.
  - intros Hid. rewrite query_get_bound by done. simpl. split_and!.
    + intros ->. done.
    + intros ride -> Hs. by rewrite decide_True.
    + intros ride -> Hs. rewrite decide_False by (by intros []).
      eexists _, _. split; [reflexivity|].
      split_and!; try done. intros caller. simpl.
      rewrite query_get_bound by done. simpl.
      rewrite lookup_insert_eq. by rewrite decide_True.
Qed.

(** C1, as stated, fails: the route accepts the id 2^63, which is no ride
    of the store, and the answer is 500, not 404. *)
Lemma book_ride_counterexample :
  rides sample_store !! 9223372036854775808 = None ∧
  book_ride ramesh 9223372036854775808 sample_store
  = (sample_store,
     (JError "Python int too large to convert to SQLite INTEGER", 500)) ∧
  book_ride ramesh 9223372036854775808 sample_store
  ≠ (sample_store, (JError "Ride not found", 404)).
Proof.
  split; [vm_compute; reflexivity|].
  assert (book_ride ramesh 9223372036854775808 sample_store
          = (sample_store,
             (JError "Python int too large to convert to SQLite INTEGER",
                     500))) as Hanswer by (vm_compute; reflexivity).
  split; [exact Hanswer|]. rewrite Hanswer. intros [=].
Qed.

Lemma book_ride_contract_witness :
  book_ride ramesh 9 sample_store
  = (sample_store, (JError "Ride not found", 404)) ∧
  book_ride ramesh 3 sample_store
  = (sample_store, (JError "Ride is not available for booking", 400)) ∧
  (∃ booked st',
     book_ride ramesh 1 sample_store
     = (st', (JRide "Ride booked successfully" (1, booked), 200)) ∧
     Ride.ride_status booked = "booked" ∧
     Ride.user_id booked = Some 2 ∧
     book_ride admin 1 st'
     = (st', (JError "Ride is not available for booking", 400))) ∧
  book_ride ramesh 9223372036854775808 sample_store
  = (sample_store,
     (JError "Python int too large to convert to SQLite INTEGER", 500)).
Proof.
  split_and!.
  - apply (proj2 (book_ride_contract ramesh 9 sample_store)).
    + unfold sqlite_integer. lia.
    + reflexivity.
  - apply (proj1 (proj2 (proj2 (book_ride_contract ramesh 3 sample_store)
                           ltac:(unfold sqlite_integer; lia))) ride3).
    + reflexivity.
    + discriminate.
  - destruct (proj2 (proj2 (proj2 (book_ride_contract ramesh 1 sample_store)
                              ltac:(unfold sqlite_integer; lia))) ride1)
      as (booked & st' & Hbook & Hstatus & Huser & _ & _ & _ & _ & Hagain).
    + reflexivity.
    + reflexivity.
    + exists booked, st'. split_and!; auto.
  - apply (proj1 (book_ride_contract ramesh 9223372036854775808 sample_store)).
    unfold sqlite_integer. lia.
Defined.

(** ** The generic ride update *)

(** The parses of [update_ride] succeed on accepted strings. *)
Lemma update_ride_parses (fallback_d : date) (fallback_t : time)
    (data : RideJson.t) :
  iso_ok (RideJson.date data) → iso_ok (RideJson.time data) →
  ∃ d t,
    match RideJson.date data with
    | Some s => iso_date s
    | None => Return fallback_d
    end = Return d ∧
    match RideJson.time data with
    | Some s => iso_time s
    | None => Return fallback_t
    end = Return t.
Proof.
  intros Hd Ht. unfold iso_date, iso_time.
  destruct (RideJson.date data) as [sd|], (RideJson.time data) as [st|].
  - destruct (Hd sd eq_refl) as (d & ? & ->), (Ht st eq_refl) as (? & t & ->).
    by exists d, t.
  - destruct (Hd sd eq_refl) as (d & ? & ->). by exists d, fallback_t.
  - destruct (Ht st eq_refl) as (? & t & ->). by exists fallback_d, t.
  - by exists fallback_d, fallback_t.
Qed.

(** C2.  A generic update of an existing ride whose patch has
    [ride_status = 'booked'] (its date and time strings, if any, being
    accepted by the parser) commits the ride with status 'booked' and the
    acting user as booking user, whatever the ride's status was: no
    availability check stands in the way. *)
Theorem update_ride_force_books (current_user : Z * User.t) (ride_id : Z)
    (data : RideJson.t) (st : Store) (ride : Ride.t) :
  rides st !! ride_id = Some ride →
  RideJson.ride_status data = Some "booked" →
  iso_ok (RideJson.date data) → iso_ok (RideJson.time data) →
  ∃ updated st',
    update_ride current_user ride_id data st
    = (st', (JRide "Ride updated successfully" (ride_id, updated), 200)) ∧
    Ride.ride_status updated = "booked" ∧
    Ride.user_id updated = Some current_user.1 ∧
    rides st' = <[ride_id := updated]> (rides st) ∧
    users st' = users st ∧
    drivers st' = drivers st.
Proof.
  intros Hride Hstatus Hd Ht.
  destruct (update_ride_parses (Ride.date ride) (Ride.time ride) data Hd Ht)
    as (d & t & Ed & Et).
  unfold update_ride, try_except. rewrite Hride, Ed, Et, Hstatus. simpl.
  eexists _, _. split; [reflexivity|]. by repeat split.
Qed.

Lemma update_ride_force_books_witness :
  rides sample_store !! 3 = Some ride3 ∧
  Ride.ride_status ride3 = "booked" ∧
  Ride.user_id ride3 = Some 2 ∧
  ∃ updated st',
    update_ride admin 3 (status_patch "booked") sample_store
    = (st', (JRide "Ride updated successfully" (3, updated), 200)) ∧
    Ride.ride_status updated = "booked" ∧
    Ride.user_id updated = Some 1.
Proof.
  repeat split.
  destruct (update_ride_force_books admin 3 (status_patch "booked")
              sample_store ride3)
    as (updated & st' & Hupd & Hstatus & Huser & _).
  - reflexivity.
  - reflexivity.
  - intros s Hs. discriminate Hs.
  - intros s Hs. discriminate Hs.
  - exists updated, st'. auto.
Defined.

(** ** Drivers *)

(** C10.  [update_driver] on an existing driver commits a row with the
    same vehicle id and creation time under the same driver id; whatever
    the patch holds, only the other seven columns can differ.  No other
    driver, no user and no ride changes, and if vehicle ids were unique
    before they are unique after. *)
Theorem update_driver_frame (current_user : Z * User.t) (driver_id : Z)
    (data : DriverJson.t) (st : Store) (driver : Driver.t) :
  drivers st !! driver_id = Some driver →
  ∃ updated st',
    update_driver current_user driver_id data st
    = (st', (JDriver "Driver updated successfully" (driver_id, updated), 200)) ∧
    Driver.vehicle_id updated = Driver.vehicle_id driver ∧
    Driver.created_at updated = Driver.created_at driver ∧
    drivers st' !! driver_id = Some updated ∧
    (∀ i, i ≠ driver_id → drivers st' !! i = drivers st !! i) ∧
    users st' = users st ∧
    rides st' = rides st ∧
    (vehicle_ids_unique st → vehicle_ids_unique st').
Proof.
  intros Hdriver. unfold update_driver, try_except. rewrite Hdriver.
  eexists _, _. split; [reflexivity|]. simpl.
  split; [done|]. split; [done|].
  split; [apply lookup_insert_eq|].
  split; [intros i Hi; by apply lookup_insert_ne|].
  split; [done|]. split; [done|].
  intros Huniq i j di dj. simpl.
  rewrite !lookup_insert.
  repeat case_decide; simplify_eq/=; intros; simplify_eq/=; eauto.
Qed.

Lemma update_driver_frame_witness :
  vehicle_ids_unique sample_store ∧
  ∃ updated st',
    update_driver admin 1 driver_patch sample_store
    = (st', (JDriver "Driver updated successfully" (1, updated), 200)) ∧
    Driver.driver_name updated = "Suresh J." ∧
    Driver.vehicle_id updated = "MH15-TR-1234" ∧
    drivers st' !! 2 = Some vikram ∧
    vehicle_ids_unique st'.
Proof.
  assert (vehicle_ids_unique sample_store) as Huniq.
  { intros i j di dj. unfold sample_store. simpl.
    rewrite !lookup_insert, !lookup_empty.
    repeat case_decide; intros; simplify_eq/=; done. }
  split; [exact Huniq|].
  destruct (update_driver_frame admin 1 driver_patch sample_store suresh)
    as (updated & st' & Hupd & Hvid & _ & _ & Hother & _ & _ & Hkeep).
  - reflexivity.
  - exists updated, st'. repeat split.
    + exact Hupd.
    + vm_compute in Hupd. by simplify_eq.
    + exact Hvid.
    + rewrite Hother by done. reflexivity.
    + by apply Hkeep.
Defined.

(** The rides a driver owns are rides of the store. *)
Lemma Driver_rides_subseteq (driver_id : Z) (st : Store) :
  Driver_rides driver_id st ⊆ rides st.
Proof. apply map_filter_subseteq. Qed.

Lemma lookup_Driver_rides (driver_id : Z) (st : Store) (i : Z) (r : Ride.t) :
  Driver_rides driver_id st !! i = Some r ↔
  rides st !! i = Some r ∧ Ride.driver_id r = driver_id.
Proof. unfold Driver_rides. by rewrite map_lookup_filter_Some. Qed.

(** C7.  A successful [delete_driver] removes the driver row and exactly
    the rides whose owner it is, and nothing else: the other drivers, the
    rides of other drivers and the users are as before.  The number of
    rides drops by the number the driver owned; when that is zero the
    rides table is unchanged. *)
Theorem delete_driver_cascade (current_user : Z * User.t) (driver_id : Z)
    (st : Store) (driver : Driver.t) :
  drivers st !! driver_id = Some driver →
  ∃ st',
    delete_driver current_user driver_id st
    = (st', (JMessage "Driver deleted successfully", 200)) ∧
    drivers st' !! driver_id = None ∧
    (∀ i, i ≠ driver_id → drivers st' !! i = drivers st !! i) ∧
    users st' = users st ∧
    (∀ i r, rides st !! i = Some r → Ride.driver_id r = driver_id →
            rides st' !! i = None) ∧
    (∀ i r, rides st !! i = Some r → Ride.driver_id r ≠ driver_id →
            rides st' !! i = Some r) ∧
    (∀ i, rides st !! i = None → rides st' !! i = None) ∧
    (size (rides st') + size (Driver_rides driver_id st) = size (rides st))%nat ∧
    (size (Driver_rides driver_id st) = 0%nat → rides st' = rides st).
Proof.
  intros Hdriver. unfold delete_driver, try_except. rewrite Hdriver.
  eexists. split; [reflexivity|]. simpl.
  split; [apply lookup_delete_eq|].
  split; [intros i Hi; by apply lookup_delete_ne|].
  split; [done|].
  split; [|split; [|split; [|split]]].
  - intros i r Hi Hr. apply lookup_difference_None. right.
    exists r. by apply lookup_Driver_rides.
  - intros i r Hi Hr. apply lookup_difference_Some. split; [done|].
    destruct (Driver_rides driver_id st !! i) as [r'|] eqn:E; [|done].
    apply lookup_Driver_rides in E as [E1 E2]. congruence.
  - intros i Hi. apply lookup_difference_None. by left.
  - pose proof (map_size_disj_union (Driver_rides driver_id st)
                  (rides st ∖ Driver_rides driver_id st)) as Hsize.
    rewrite map_difference_union in Hsize by apply Driver_rides_subseteq.
    rewrite Hsize; [lia|]. by apply map_disjoint_difference_r1.
  - intros Hnone. apply map_size_empty_inv in Hnone. rewrite Hnone.
    apply map_difference_empty.
Qed.

Lemma delete_driver_cascade_witness :
  size (Driver_rides 1 sample_store) = 2%nat ∧
  ∃ st',
    delete_driver admin 1 sample_store
    = (st', (JMessage "Driver deleted successfully", 200)) ∧
    drivers st' !! 1 = None ∧
    drivers st' !! 2 = Some vikram ∧
    users st' = users sample_store ∧
    rides st' !! 1 = None ∧
    rides st' !! 2 = Some ride2 ∧
    rides st' !! 3 = None ∧
    size (rides st') = 1%nat.
Proof.
  split; [reflexivity|].
  destruct (delete_driver_cascade admin 1 sample_store suresh)
    as (st' & Hdel & Hgone & Hothers & Husers & Hown & Hkeep & _ & Hsize & _).
  - reflexivity.
  - exists st'. repeat split.
    + exact Hdel.
    + exact Hgone.
    + rewrite Hothers by done. reflexivity.
    + exact Husers.
    + by apply (Hown 1 ride1).
    + by apply (Hkeep 2 ride2).
    + by apply (Hown 3 ride3).
    + change (size (Driver_rides 1 sample_store)) with 2%nat in Hsize.
      change (size (rides sample_store)) with 3%nat in Hsize. lia.
Defined.

(** ** The orderings are total preorders *)

Lemma date_lt_trans (a b c : date) : date_lt a b → date_lt b c → date_lt a c.
Proof. unfold date_lt. lia. Qed.

Lemma date_trichotomy (a b : date) : date_lt a b ∨ a = b ∨ date_lt b a.
Proof.
  destruct a as [y m d], b as [y' m' d']. unfold date_lt. simpl.
  destruct (decide (y = y')) as [->|]; [|lia].
  destruct (decide (m = m')) as [->|]; [|lia].
  destruct (decide (d = d')) as [->|]; [|lia].
  right. by left.
Qed.

Lemma date_lt_irrefl (a : date) : ¬ date_lt a a.
Proof. unfold date_lt. lia. Qed.

Lemma time_le_trans (a b c : time) : time_le a b → time_le b c → time_le a c.
Proof. unfold time_le. lia. Qed.

Lemma time_le_total (a b : time) : time_le a b ∨ time_le b a.
Proof. unfold time_le. lia. Qed.

#[global] Instance date_time_desc_trans : Transitive date_time_desc.
Proof.
  intros a b c. unfold date_time_desc.
  intros [Hab | [Eab Hab]] [Hbc | [Ebc Hbc]].
  - left. by apply date_lt_trans with (Ride.date b.2).
  - left. by rewrite <- Ebc.
  - left. by rewrite Eab.
  - right. split; [congruence|]. by apply time_le_trans with (Ride.time b.2).
Qed.

#[global] Instance date_time_desc_total : Total date_time_desc.
Proof.
  intros a b. unfold date_time_desc.
  destruct (date_trichotomy (Ride.date a.2) (Ride.date b.2)) as [H | [H | H]].
  - right. by left.
  - destruct (time_le_total (Ride.time a.2) (Ride.time b.2)).
    + right. right. by split.
    + left. right. by split.
  - left. by left.
Qed.

#[global] Instance created_at_desc_trans : Transitive created_at_desc.
Proof. intros a b c. unfold created_at_desc. lia. Qed.

#[global] Instance created_at_desc_total : Total created_at_desc.
Proof. intros a b. unfold created_at_desc. lia. Qed.

(** ** Listing rides *)






(** ** The admin dashboard *)

(** The first [n] entities of a query in the order [R]: they are entities
    of the query, in order, and every entity left out comes after each of
    them. *)
Lemma limit_order_by {A} (R : relation (Z * A)) `{∀ x y, Decision (R x y)}
    `{!Total R, !Transitive R} (n : nat) (q : list (Z * A)) :
  length (limit n (order_by R q)) = Nat.min n (length q) ∧
  (NoDup q → NoDup (limit n (order_by R q))) ∧
  (∀ e, e ∈ limit n (order_by R q) → e ∈ q) ∧
  StronglySorted R (limit n (order_by R q)) ∧
  (∀ e e', e ∈ limit n (order_by R q) → e' ∈ q →
           e' ∉ limit n (order_by R q) → R e e').
Proof.
  unfold limit, order_by.
  pose proof (merge_sort_Permutation R q) as Hperm.
  pose proof (StronglySorted_merge_sort R q) as Hsorted.
  rewrite <- (take_drop n (merge_sort R q)) in Hsorted.
  split; [|split; [|split; [|split]]].
  - rewrite length_take. by rewrite Hperm.
  - intros Hnodup. apply (sublist_NoDup _ (merge_sort R q)).
    + by rewrite Hperm.
    + apply sublist_take.
  - intros e He. rewrite <- Hperm. by apply (subseteq_take n).
  - by apply StronglySorted_app_1_l in Hsorted.
  - intros e e' He He' Hout.
    apply (StronglySorted_app_1_elem_of _ _ _ _ _ Hsorted He).
    rewrite <- Hperm, <- (take_drop n (merge_sort R q)) in He'.
    apply elem_of_app in He' as [|]; [done|done].
Qed.

(** C8.  [admin_dashboard] leaves the store as it is and answers 200 with
    the number of drivers and of available drivers, the number of rides
    and of rides in each of the three statuses, and the recent rides: the
    ten newest rides of the store by creation time (all of them when
    there are fewer), newest first. *)
Theorem admin_dashboard_contract (current_user : Z * User.t) (st : Store) :
  ∃ stats recent,
    admin_dashboard current_user st
    = (st, (JAdminDashboard stats recent, 200)) ∧
    total_drivers stats = size (drivers st) ∧
    available_drivers stats
    = size (filter (λ e, Driver.is_available e.2 = true) (drivers st)) ∧
    total_rides stats = size (rides st) ∧
    available_rides stats
    = size (filter (λ e, Ride.ride_status e.2 = "available") (rides st)) ∧
    booked_rides stats
    = size (filter (λ e, Ride.ride_status e.2 = "booked") (rides st)) ∧
    completed_rides stats
    = size (filter (λ e, Ride.ride_status e.2 = "completed") (rides st)) ∧
    length recent = Nat.min 10 (size (rides st)) ∧
    NoDup recent ∧
    (∀ e, e ∈ recent → rides st !! e.1 = Some e.2) ∧
    StronglySorted created_at_desc recent ∧
    (∀ e i r, e ∈ recent → rides st !! i = Some r → (i, r) ∉ recent →
              Ride.created_at r ≤ Ride.created_at e.2).
Proof.
  unfold admin_dashboard, try_except. eexists _, _.
  split; [reflexivity|].
  cbn [total_drivers available_drivers total_rides available_rides
       booked_rides completed_rides].
  destruct (limit_order_by created_at_desc 10 (query (rides st)))
    as (Hlen & Hnodup & Hin & Hsorted & Hnewest).
  split_and!.
  - unfold count, query. by rewrite length_map_to_list.
  - apply count_filter_by.
  - unfold count, query. by rewrite length_map_to_list.
  - apply count_filter_by.
  - apply count_filter_by.
  - apply count_filter_by.
  - rewrite Hlen. unfold query. by rewrite length_map_to_list.
  - apply Hnodup, NoDup_map_to_list.
  - intros [i r] He. apply Hin in He. by apply elem_of_map_to_list in He.
  - exact Hsorted.
  - intros e i r He Hir Hout.
    apply (Hnewest e (i, r) He); [|done]. by apply elem_of_map_to_list.
Qed.

Lemma admin_dashboard_contract_witness :
  ∃ stats recent,
    admin_dashboard admin sample_store
    = (sample_store, (JAdminDashboard stats recent, 200)) ∧
    total_drivers stats = 2%nat ∧
    available_drivers stats = 1%nat ∧
    total_rides stats = 3%nat ∧
    available_rides stats = 2%nat ∧
    booked_rides stats = 1%nat ∧
    completed_rides stats = 0%nat ∧
    length recent = 3%nat ∧
    StronglySorted created_at_desc recent.
Proof.
  destruct (admin_dashboard_contract admin sample_store)
    as (stats & recent & Hdash & H1 & H2 & H3 & H4 & H5 & H6 & Hlen & _ & _
        & Hsorted & _).
  exists stats, recent. split_and!; try done.
Defined.

(** ** Registration and login *)

Section accounts.
Context `{!Externals}.

(** [first] finds a row when some row satisfies the filter. *)
Lemma first_filter_by_is_Some {A} (P : A → Prop) `{∀ x, Decision (P x)}
    (table : gmap Z A) (i : Z) (x : A) :
  table !! i = Some x → P x → is_Some (first (filter_by P (query table))).
Proof.
  intros Hix HP.
  destruct (first (filter_by P (query table))) as [e|] eqn:E; [by exists e|].
  rewrite first_filter_by_None in E. by destruct (E i x).
Qed.

(** [first] finds the one row that satisfies the filter. *)
Lemma first_filter_by_unique {A} (P : A → Prop) `{∀ x, Decision (P x)}
    (table : gmap Z A) (i : Z) (x : A) :
  table !! i = Some x → P x →
  (∀ j y, table !! j = Some y → P y → j = i) →
  first (filter_by P (query table)) = Some (i, x).
Proof.
  intros Hix HP Huniq.
  destruct (first_filter_by_is_Some P table i x Hix HP) as [[j y] E].
  rewrite E. apply first_filter_by_Some in E as [Hjy HPy]. simpl in *.
  assert (j = i) as -> by eauto. congruence.
Qed.

(** A registration that answers 201 had its four required fields, met no
    user with its username or phone number, and added one row under a new
    key. *)
Lemma register_201 (now : Z) (salt : string) (data : RegisterJson.t)
    (st st' : Store) (body : Json) :
  register now salt data st = (st', (body, 201)) →
  ∃ username phone_no password full_name user,
    RegisterJson.username data = Some username ∧
    RegisterJson.phone_no data = Some phone_no ∧
    RegisterJson.password data = Some password ∧
    RegisterJson.full_name data = Some full_name ∧
    (∀ i u, users st !! i = Some u → User.username u ≠ username) ∧
    (∀ i u, users st !! i = Some u → User.phone_no u ≠ phone_no) ∧
    User.username user = username ∧
    User.phone_no user = phone_no ∧
    User.password_hash user = generate_password_hash salt password ∧
    User.is_admin user = default false (RegisterJson.is_admin data) ∧
    users st !! next_id (users st) = None ∧
    st' = {| users := <[next_id (users st) := user]> (users st);
             drivers := drivers st;
             rides := rides st |} ∧
    body = JUser "User registered successfully"
                 (User.to_dict (next_id (users st), user)).
Proof.
  unfold register, try_except, required.
  destruct (RegisterJson.username data) as [username|]; [|by intros [=]].
  destruct (RegisterJson.phone_no data) as [phone_no|]; [|by intros [=]].
  destruct (RegisterJson.password data) as [password|]; [|by intros [=]].
  destruct (RegisterJson.full_name data) as [full_name|]; [|by intros [=]].
  destruct (first (filter_by (λ u, User.username u = username) _))
    eqn:Eu; [by intros [=]|].
  destruct (first (filter_by (λ u, User.phone_no u = phone_no) _))
    eqn:Ep; [by intros [=]|].
  intros [= <- <-].
  rewrite first_filter_by_None in Eu. rewrite first_filter_by_None in Ep.
  exists username, phone_no, password, full_name,
    {| User.username := username;
       User.phone_no := phone_no;
       User.password_hash := generate_password_hash salt password;
       User.full_name := full_name;
       User.village := Some (default "" (RegisterJson.village data));
       User.is_admin := default false (RegisterJson.is_admin data);
       User.created_at := now |}.
  split_and!; try done. apply next_id_fresh.
Qed.

(** A complete registration that meets no user with its username or
    phone number answers 201. *)
Lemma register_succeeds (now : Z) (salt : string) (data : RegisterJson.t)
    (st : Store) :
  complete data →
  (∀ i u, users st !! i = Some u →
          RegisterJson.username data ≠ Some (User.username u) ∧
          RegisterJson.phone_no data ≠ Some (User.phone_no u)) →
  ∃ st' body, register now salt data st = (st', (body, 201)).
Proof.
  intros ([username Hu] & [phone_no Hp] & [password Hpw] & [full_name Hf]) Hnew.
  unfold register, try_except, required. rewrite Hu, Hp, Hpw, Hf.
  rewrite Hu, Hp in Hnew.
  destruct (first (filter_by (λ u, User.username u = username) _))
    as [e|] eqn:Eu.
  { apply first_filter_by_Some in Eu as [He HP].
    destruct (Hnew _ _ He) as [Hne _]. by rewrite HP in Hne. }
  destruct (first (filter_by (λ u, User.phone_no u = phone_no) _))
    as [e|] eqn:Ep.
  { apply first_filter_by_Some in Ep as [He HP].
    destruct (Hnew _ _ He) as [_ Hne]. by rewrite HP in Hne. }
  by eexists _, _.
Qed.

(** C4.  After a registration that succeeded, a second registration with
    all required fields that reuses its username or its phone number is
    refused with 409 and leaves the store as it is.  A registration with
    all required fields whose username and phone number no user has yet
    answers 201 and adds that user, and from then on a login with the
    same username and password answers 200 with a token and that user. *)
Theorem register_conflict_then_login (st : Store) :
  (∀ now1 salt1 data1 st1 body1 now2 salt2 data2,
     register now1 salt1 data1 st = (st1, (body1, 201)) →
     complete data2 →
     RegisterJson.username data2 = RegisterJson.username data1 ∨
     RegisterJson.phone_no data2 = RegisterJson.phone_no data1 →
     ∃ msg, register now2 salt2 data2 st1 = (st1, (JError msg, 409))) ∧
  (∀ now salt data,
     complete data →
     (∀ i u, users st !! i = Some u →
             RegisterJson.username data ≠ Some (User.username u) ∧
             RegisterJson.phone_no data ≠ Some (User.phone_no u)) →
     ∃ st1 i u,
       register now salt data st
       = (st1, (JUser "User registered successfully" (User.to_dict (i, u)),
                201)) ∧
       users st !! i = None ∧
       users st1 = <[i := u]> (users st) ∧
       ∀ now', ∃ token,
         login now' {| LoginJson.username := RegisterJson.username data;
                       LoginJson.password := RegisterJson.password data |} st1
         = (st1, (JLogin "Login successful" token (User.to_dict (i, u)), 200))).
Proof.
  split.
  - intros now1 salt1 data1 st1 body1 now2 salt2 data2 Hfirst Hcomplete Hreuse.
    apply register_201 in Hfirst
      as (u1 & p1 & pw1 & f1 & user & Hu1 & Hp1 & _ & _ & _ & _ & Huser
          & Hphone & _ & _ & _ & -> & _).
    destruct Hcomplete as ([u2 Hu2] & [p2 Hp2] & [pw2 Hpw2] & [f2 Hf2]).
    rewrite Hu1, Hu2, Hp1, Hp2 in Hreuse.
    unfold register, try_except, required. rewrite Hu2, Hp2, Hpw2, Hf2.
    cbn [users].
    destruct (first (filter_by (λ u, User.username u = u2) _)) eqn:Eu;
      [by eexists|].
    destruct Hreuse as [[= ->] | [= ->]].
    + rewrite first_filter_by_None in Eu.
      destruct (Eu (next_id (users st)) user); [apply lookup_insert_eq|done].
    + destruct (first_filter_by_is_Some (λ u, User.phone_no u = p1)
                  (<[next_id (users st) := user]> (users st))
                  (next_id (users st)) user) as [e ->];
        [apply lookup_insert_eq | done | by eexists].
  - intros now salt data Hcomplete Hnew.
    destruct (register_succeeds now salt data st Hcomplete Hnew)
      as (st1 & body & Hreg).
    destruct (register_201 _ _ _ _ _ _ Hreg)
      as (username & phone_no & password & full_name & user & Hu & _ & Hpw & _
          & Hfree & _ & Huser & _ & Hhash & _ & Hfresh & -> & ->).
    exists {| users := <[next_id (users st) := user]> (users st);
              drivers := drivers st; rides := rides st |},
           (next_id (users st)), user.
    split_and!; try done.
    intros now'. unfold login, try_except. cbn [users LoginJson.username
                                               LoginJson.password].
    rewrite Hu, Hpw.
    rewrite (first_filter_by_unique (λ u, User.username u = username)
               _ (next_id (users st)) user).
    + cbn [snd fst]. rewrite Hhash, check_generate_password_hash. by eexists.
    + apply lookup_insert_eq.
    + done.
    + intros j y. rewrite lookup_insert. case_decide; [done|].
      intros Hj Hy. by destruct (Hfree j y).
Qed.

(** C5.  A login with a username that no user has and a login with a
    wrong password for a username that a user has get the same answer:
    401 with the one message "Invalid username or password"; neither
    changes the store. *)
Theorem login_failure_indistinguishable (now1 now2 : Z) (st1 st2 : Store)
    (username1 password1 username2 password2 : string) :
  (∀ i u, users st1 !! i = Some u → User.username u ≠ username1) →
  (∃ i u, users st2 !! i = Some u ∧ User.username u = username2) →
  (∀ i u, users st2 !! i = Some u → User.username u = username2 →
          check_password_hash (User.password_hash u) password2 = false) →
  login now1 {| LoginJson.username := Some username1;
                LoginJson.password := Some password1 |} st1
  = (st1, (JError "Invalid username or password", 401)) ∧
  login now2 {| LoginJson.username := Some username2;
                LoginJson.password := Some password2 |} st2
  = (st2, (JError "Invalid username or password", 401)) ∧
  (login now1 {| LoginJson.username := Some username1;
                 LoginJson.password := Some password1 |} st1).2
  = (login now2 {| LoginJson.username := Some username2;
                   LoginJson.password := Some password2 |} st2).2.
Proof.
  intros Hnone (i & u & Hiu & Hname) Hwrong.
  assert (login now1 {| LoginJson.username := Some username1;
                        LoginJson.password := Some password1 |} st1
          = (st1, (JError "Invalid username or password", 401))) as H1.
  { unfold login, try_except. cbn [LoginJson.username LoginJson.password].
    destruct (first (filter_by (λ u, User.username u = username1) _))
      as [e|] eqn:E; [|done].
    apply first_filter_by_Some in E as [He HP]. by destruct (Hnone _ _ He). }
  assert (login now2 {| LoginJson.username := Some username2;
                        LoginJson.password := Some password2 |} st2
          = (st2, (JError "Invalid username or password", 401))) as H2.
  { unfold login, try_except. cbn [LoginJson.username LoginJson.password].
    destruct (first (filter_by (λ u, User.username u = username2) _))
      as [e|] eqn:E; [|done].
    apply first_filter_by_Some in E as [He HP].
    by rewrite (Hwrong _ _ He HP). }
  split; [done|]. split; [done|]. by rewrite H1, H2.
Qed.

(** C9.  The route table puts no decorator in front of [register]: the
    answer is the same with any [Authorization] header or none.  The user
    a successful registration adds has the admin flag of the body's
    [is_admin] field, false when the field is absent.  So in every store
    some request without credentials creates an admin. *)
Theorem register_open_sets_admin (now : Z) (salt : string)
    (header : option string) (data : RegisterJson.t) (st : Store) :
  app now salt {| authorization := header; route := POST_register data |} st
  = register now salt data st ∧
  (∀ st' body,
     register now salt data st = (st', (body, 201)) →
     ∃ user,
       users st !! next_id (users st) = None ∧
       users st' = <[next_id (users st) := user]> (users st) ∧
       User.is_admin user = default false (RegisterJson.is_admin data)) ∧
  (∃ data' st' user,
     RegisterJson.is_admin data' = Some true ∧
     app now salt {| authorization := None; route := POST_register data' |} st
     = (st', (JUser "User registered successfully"
                    (User.to_dict (next_id (users st), user)), 201)) ∧
     users st' !! next_id (users st) = Some user ∧
     User.is_admin user = true).
Proof.
  split; [done|]. split.
  - intros st' body Hreg.
    apply register_201 in Hreg
      as (? & ? & ? & ? & user & _ & _ & _ & _ & _ & _ & _ & _ & _ & Hadmin
          & Hfresh & -> & _).
    by exists user.
  - set (name := fresh ((λ e : Z * User.t, User.username e.2)
                          <$> query (users st))).
    set (phone := fresh ((λ e : Z * User.t, User.phone_no e.2)
                           <$> query (users st))).
    set (data' := {| RegisterJson.username := Some name;
                     RegisterJson.phone_no := Some phone;
                     RegisterJson.password := Some "";
                     RegisterJson.full_name := Some "";
                     RegisterJson.village := None;
                     RegisterJson.is_admin := Some true |}).
    destruct (register_succeeds now salt data' st) as (st' & body & Hreg).
    { by repeat split. }
    { intros i u Hiu. cbn [data' RegisterJson.username RegisterJson.phone_no].
      split; intros [= E].
      - apply (infinite_is_fresh ((λ e : Z * User.t, User.username e.2)
                                    <$> query (users st))).
        fold name. rewrite E. apply list_elem_of_fmap. exists (i, u).
        split; [done|]. by apply elem_of_map_to_list.
      - apply (infinite_is_fresh ((λ e : Z * User.t, User.phone_no e.2)
                                    <$> query (users st))).
        fold phone. rewrite E. apply list_elem_of_fmap. exists (i, u).
        split; [done|]. by apply elem_of_map_to_list. }
    destruct (register_201 _ _ _ _ _ _ Hreg)
      as (? & ? & ? & ? & user & _ & _ & _ & _ & _ & _ & _ & _ & _ & Hadmin
          & _ & -> & ->).
    exists data', {| users := <[next_id (users st) := user]> (users st);
                     drivers := drivers st; rides := rides st |}, user.
    split_and!; [done | exact Hreg | apply lookup_insert_eq | exact Hadmin].
Qed.

End accounts.

(** Facts about the users of [sample_store] reduce to its two rows. *)
Ltac sample_users :=
  intros ? ?; unfold sample_store; simpl;
  rewrite !lookup_insert, ?lookup_empty;
  repeat case_decide; intros; simplify_eq/=; try done.

Lemma register_conflict_then_login_witness :
  ∃ st1 i u,
    @register stub_externals 100 "salt" sita sample_store
    = (st1, (JUser "User registered successfully" (User.to_dict (i, u)), 201)) ∧
    (∃ msg, @register stub_externals 200 "pepper" sita_again st1
            = (st1, (JError msg, 409))) ∧
    ∃ token,
      @login stub_externals 300
        {| LoginJson.username := Some "sita";
           LoginJson.password := Some "secret" |} st1
      = (st1, (JLogin "Login successful" token (User.to_dict (i, u)), 200)).
Proof.
  destruct (@register_conflict_then_login stub_externals sample_store)
    as [Hconflict Hlogin].
  destruct (Hlogin 100 "salt" sita) as (st1 & i & u & Hreg & _ & _ & Hlog).
  - repeat split; by eexists.
  - sample_users.
  - exists st1, i, u. split; [exact Hreg|]. split.
    + apply (Hconflict 100 "salt" sita st1 _ 200 "pepper" sita_again Hreg).
      * repeat split; by eexists.
      * left. reflexivity.
    + apply (Hlog 300).
Defined.

Lemma login_failure_indistinguishable_witness :
  (@login stub_externals 100
     {| LoginJson.username := Some "nobody";
        LoginJson.password := Some "farmer123" |} sample_store).2
  = (@login stub_externals 200
       {| LoginJson.username := Some "ramesh";
          LoginJson.password := Some "wrong" |} sample_store).2.
Proof.
  apply (@login_failure_indistinguishable stub_externals 100 200
           sample_store sample_store "nobody" "farmer123" "ramesh" "wrong").
  - sample_users.
  - exists 2, ramesh.2. split; reflexivity.
  - sample_users.
Defined.

Lemma register_open_sets_admin_witness :
  ∃ st' body user,
    @app stub_externals 100 "salt"
      {| authorization := None; route := POST_register mallory |} sample_store
    = (st', (body, 201)) ∧
    users st' = <[3 := user]> (users sample_store) ∧
    User.is_admin user = true.
Proof.
  destruct (@register_open_sets_admin stub_externals 100 "salt" None mallory
              sample_store) as (Happ & Hadmin & _).
  destruct (Hadmin
              (@register stub_externals 100 "salt" mallory sample_store).1
              (@register stub_externals 100 "salt" mallory sample_store).2.1)
    as (user & _ & Husers & Hflag).
  - reflexivity.
  - eexists _, _, user. split; [|split].
    + rewrite Happ. reflexivity.
    + exact Husers.
    + exact Hflag.
Defined.

(** ** The ride life cycle *)

Section life_cycle.
Context `{!Externals}.

(** A sequence of allowed calls leads from a reachable store to a
    reachable store. *)
Lemma reachable_run_all (allowed : Op → Store → Prop) (ops : list Op)
    (st : Store) :
  reachable_by allowed st → all_allowed allowed ops st →
  reachable_by allowed (run_all ops st).
Proof.
  revert st. induction ops as [|op ops IH]; intros st Hst Hops; [done|].
  destruct Hops as [Hop Hops]. simpl. apply IH; [|done].
  by apply reachable_step.
Qed.

(** The calls on users and drivers leave the rides alone. *)
Lemma register_rides (now : Z) (salt : string) (data : RegisterJson.t)
    (st : Store) :
  rides (register now salt data st).1 = rides st.
Proof.
  unfold register, try_except, required.
  repeat case_match; by simplify_eq/=.
Qed.

Lemma create_driver_rides (now : Z) (u : Z * User.t) (data : DriverJson.t)
    (st : Store) :
  rides (create_driver now u data st).1 = rides st.
Proof.
  unfold create_driver, try_except, required.
  repeat case_match; by simplify_eq/=.
Qed.

Lemma update_driver_rides (u : Z * User.t) (driver_id : Z)
    (data : DriverJson.t) (st : Store) :
  rides (update_driver u driver_id data st).1 = rides st.
Proof.
  unfold update_driver, try_except. repeat case_match; by simplify_eq/=.
Qed.

(** The calls that delete keep a part of the rides. *)
Lemma delete_driver_rides (u : Z * User.t) (driver_id : Z) (st : Store) :
  rides (delete_driver u driver_id st).1 ⊆ rides st.
Proof.
  unfold delete_driver, try_except.
  destruct (drivers st !! driver_id); simpl; [|done].
  by apply map_subseteq_difference_l.
Qed.

Lemma delete_ride_rides (u : Z * User.t) (ride_id : Z) (st : Store) :
  rides (delete_ride u ride_id st).1 ⊆ rides st.
Proof.
  unfold delete_ride, try_except, query_get.
  case_decide; [|done]. simpl.
  destruct (rides st !! ride_id); simpl; [|done].
  apply delete_subseteq.
Qed.

(** The other calls leave the rides alone or write one row. *)
Lemma create_ride_rides (now : Z) (u : Z * User.t) (data : RideJson.t)
    (st : Store) :
  rides (create_ride now u data st).1 = rides st ∨
  ∃ i r, rides (create_ride now u data st).1 = <[i := r]> (rides st) ∧
         Ride.user_id r = None ∧
         Ride.ride_status r = default "available" (RideJson.ride_status data).
Proof.
  unfold create_ride, try_except, required.
  destruct (RideJson.driver_id data) as [driver_id|]; [|by left].
  destruct (RideJson.date data) as [date|]; [|by left].
  destruct (RideJson.time data) as [time|]; [|by left].
  destruct (RideJson.start_location data); [|by left].
  destruct (RideJson.destination data); [|by left].
  unfold query_get. case_decide; [simpl|by left].
  destruct (drivers st !! driver_id); [|by left].
  destruct (iso_date date); [by left|]. destruct (iso_time time); [by left|].
  right. by eexists _, _.
Qed.

Lemma update_ride_rides (u : Z * User.t) (ride_id : Z) (data : RideJson.t)
    (st : Store) :
  rides (update_ride u ride_id data st).1 = rides st ∨
  ∃ old r, rides st !! ride_id = Some old ∧
           rides (update_ride u ride_id data st).1
           = <[ride_id := r]> (rides st) ∧
           Ride.ride_status r
           = default (Ride.ride_status old) (RideJson.ride_status data) ∧
           (Ride.user_id r = Ride.user_id old ∨ Ride.ride_status r = "booked").
Proof.
  unfold update_ride, try_except.
  destruct (rides st !! ride_id) as [old|]; [|by left].
  destruct (match RideJson.date data with Some _ => _ | None => _ end);
    [by left|].
  destruct (match RideJson.time data with Some _ => _ | None => _ end);
    [by left|].
  right. eexists old, _. split_and!; [done..|]. simpl.
  destruct (RideJson.ride_status data) as [status|]; [|by left].
  case_decide; [right; by subst | by left].
Qed.

Lemma book_ride_rides (u : Z * User.t) (ride_id : Z) (st : Store) :
  rides (book_ride u ride_id st).1 = rides st ∨
  ∃ r, rides (book_ride u ride_id st).1 = <[ride_id := r]> (rides st) ∧
       Ride.ride_status r = "booked".
Proof.
  unfold book_ride, try_except, query_get.
  case_decide; [simpl|by left].
  destruct (rides st !! ride_id); [|by left].
  case_decide; [by left|]. right. by eexists.
Qed.

(** The invariant passes to a part of the rides and to the rides with one
    sound row written. *)
Lemma ride_invariant_subseteq (st st' : Store) :
  rides st' ⊆ rides st → ride_invariant st → ride_invariant st'.
Proof.
  intros Hsub Hinv i r Hir. apply (Hinv i).
  by apply (lookup_weaken _ _ _ _ Hir).
Qed.

Lemma ride_invariant_insert (st st' : Store) (i : Z) (r : Ride.t) :
  rides st' = <[i := r]> (rides st) → ride_ok r →
  ride_invariant st → ride_invariant st'.
Proof.
  intros Hrides Hr Hinv j r'. rewrite Hrides, lookup_insert.
  case_decide; [by intros [= <-] | apply Hinv].
Qed.

(** Each disciplined call keeps the invariant. *)
Lemma disciplined_step (op : Op) (st : Store) :
  disciplined op st → ride_invariant st → ride_invariant (run op st).1.
Proof.
  intros [_ Hop] Hinv. destruct op as [now salt data | now u data
    | u driver_id data | u driver_id | now u data | u ride_id data
    | u ride_id | u ride_id]; simpl in *.
  - apply (ride_invariant_subseteq st); [by rewrite register_rides | done].
  - apply (ride_invariant_subseteq st); [by rewrite create_driver_rides | done].
  - apply (ride_invariant_subseteq st); [by rewrite update_driver_rides | done].
  - apply (ride_invariant_subseteq st); [apply delete_driver_rides | done].
  - destruct (create_ride_rides now u data st) as [E | (i & r & E & Hu & Hs)].
    + apply (ride_invariant_subseteq st); [by rewrite E | done].
    + apply (ride_invariant_insert st _ i r E); [|done].
      split; [|by rewrite Hu]. rewrite Hs.
      destruct (RideJson.ride_status data) as [status|]; [by apply Hop|].
      by left.
  - destruct (update_ride_rides u ride_id data st)
      as [E | (old & r & Hold & E & Hs & Hu)].
    + apply (ride_invariant_subseteq st); [by rewrite E | done].
    + apply (ride_invariant_insert st _ ride_id r E); [|done].
      destruct (Hinv _ _ Hold) as [Hknown Hbooked].
      destruct (RideJson.ride_status data) as [status|]; simpl in Hs.
      * destruct (Hop status eq_refl) as [Hstatus Havailable].
        split; [by rewrite Hs|]. intros Huser.
        destruct Hu as [Hu | Hu]; [|by left].
        rewrite Hs. destruct Hstatus as [-> | [-> | ->]]; [|by left|by right].
        rewrite Hu in Huser. by destruct Huser, (Havailable eq_refl old).
      * destruct Hu as [Hu | Hu]; [|split; [right; by left | by left]].
        split; [by rewrite Hs|]. rewrite Hs, Hu. done.
  - apply (ride_invariant_subseteq st); [apply delete_ride_rides | done].
  - destruct (book_ride_rides u ride_id st) as [E | (r & E & Hs)].
    + apply (ride_invariant_subseteq st); [by rewrite E | done].
    + apply (ride_invariant_insert st _ ride_id r E); [|done].
      split; [right; by left | by left].
Qed.

(** C3, as the code has it.  The store validates no status and never
    clears a booking user, so the invariants hold of the stores reached by
    disciplined calls: every ride's status is one of 'available',
    'booked', 'completed', and a ride has a booking user only when its
    status is 'booked' or 'completed'. *)
Theorem ride_invariant_disciplined (st : Store) :
  reachable_by disciplined st → ride_invariant st.
Proof.
  induction 1 as [|st op Hst IH Hop].
  - intros i r Hir. simpl in Hir. by rewrite lookup_empty in Hir.
  - by apply disciplined_step.
Qed.

End life_cycle.

(** C3, as stated, fails: the calls of [stray_trace] are all permitted,
    and they leave ride 1 'available' with a booking user and ride 2 with
    the status 'cancelled'. *)
Lemma ride_invariant_counterexample :
  @reachable stub_externals stray_store ∧
  (∃ r, rides stray_store !! 1 = Some r ∧
        Ride.ride_status r = "available" ∧ Ride.user_id r = Some 1) ∧
  (∃ r, rides stray_store !! 2 = Some r ∧ Ride.ride_status r = "cancelled") ∧
  ¬ ride_invariant stray_store.
Proof.
  split_and!.
  - apply reachable_run_all; [constructor|].
    cbv [all_allowed stray_trace permitted authenticated].
    split_and!; try exact I; vm_compute; reflexivity.
  - exists (a_ride 1 (Some 1) (Date 2024 3 2) (Time 8 0 0 0) "available" 10).
    split_and!; vm_compute; reflexivity.
  - exists (a_ride 1 None (Date 2024 3 2) (Time 8 0 0 0) "cancelled" 20).
    split_and!; vm_compute; reflexivity.
  - intros Hinv.
    destruct (Hinv 2 (a_ride 1 None (Date 2024 3 2) (Time 8 0 0 0)
                        "cancelled" 20)) as [[H | [H | H]] _];
      [vm_compute; reflexivity | discriminate H..].
Qed.

Lemma ride_invariant_disciplined_witness :
  @reachable_by stub_externals disciplined booked_store ∧
  ride_invariant booked_store ∧
  ∃ r, rides booked_store !! 1 = Some r ∧
       Ride.ride_status r = "booked" ∧ Ride.user_id r = Some 1.
Proof.
  assert (@reachable_by stub_externals disciplined booked_store) as Hreach.
  { apply reachable_run_all; [constructor|].
    cbv [all_allowed booking_trace disciplined permitted authenticated].
    split_and!; try exact I; try (vm_compute; reflexivity); intros ? [=]. }
  split; [exact Hreach|]. split.
  - apply (@ride_invariant_disciplined stub_externals booked_store Hreach).
  - exists (a_ride 1 (Some 1) (Date 2024 3 2) (Time 8 0 0 0) "booked" 10).
    split_and!; vm_compute; reflexivity.
Defined.

(** ** The decorators establish the guards *)

Section guards.
Context `{!Externals}.

(** [token_required] either answers 401 itself, leaving the store as it
    is, or calls the view with a user that is a row of the store. *)
Lemma token_required_cases (now : Z) (header : option string)
    (f : Z * User.t → View) (st : Store) :
  (token_required now header f st).1 = st ∨
  ∃ u, authenticated u st ∧ token_required now header f st = f u st.
Proof.
  unfold token_required.
  destruct header as [auth_header|]; [|by left].
  destruct (split " " auth_header !! 1%nat) as [token|]; [|by left].
  case_decide; [by left|].
  destruct (jwt_decode now token) as [| |data]; [by left..|].
  destruct (users st !! claim_user_id data) as [u|] eqn:E; [|by left].
  right. by exists (claim_user_id data, u).
Qed.

(** [admin_required] moreover calls the view with an admin only. *)
Lemma admin_required_cases (now : Z) (header : option string)
    (f : Z * User.t → View) (st : Store) :
  (admin_required now header f st).1 = st ∨
  ∃ u, authenticated u st ∧ User.is_admin u.2 = true ∧
       admin_required now header f st = f u st.
Proof.
  unfold admin_required.
  destruct (token_required_cases now header
              (λ current_user st,
                 if User.is_admin current_user.2 then f current_user st
                 else (st, (JError "Admin access required", 403))) st)
    as [E | (u & Hu & E)]; [by left|].
  rewrite E. destruct (User.is_admin u.2) eqn:Hadmin; [|by left].
  right. by exists u.
Qed.

(** The read-only views give the store back. *)
Lemma login_store (now : Z) (data : LoginJson.t) (st : Store) :
  (login now data st).1 = st.
Proof. unfold login, try_except. repeat case_match; by simplify_eq/=. Qed.

Lemma get_rides_store (status vehicle_type : option string)
    (date_filter : option IsoString) (st : Store) :
  (get_rides status vehicle_type date_filter st).1 = st.
Proof.
  unfold get_rides, try_except.
  destruct (match date_filter with Some _ => _ | None => _ end); done.
Qed.

Lemma admin_dashboard_store (u : Z * User.t) (st : Store) :
  (admin_dashboard u st).1 = st.
Proof. done. Qed.

(** Every request to the application is a permitted call of the state
    machine or leaves the store as it is; so the stores the application
    passes through are reachable. *)
Lemma app_reachable (now : Z) (salt : string) (req : Request) (st : Store) :
  reachable st → reachable (app now salt req st).1.
Proof.
  intros Hst. unfold app.
  destruct (route req) as [data | data | data | driver_id data | driver_id
    | status vehicle_type date | data | ride_id data | ride_id | ride_id |].
  - by apply (reachable_step permitted st (Register now salt data)).
  - by rewrite login_store.
  - destruct (admin_required_cases now (authorization req)
                (λ u, create_driver now u data) st)
      as [-> | (u & Hu & Ha & ->)]; [done|].
    by apply (reachable_step permitted st (CreateDriver now u data)).
  - destruct (admin_required_cases now (authorization req)
                (λ u, update_driver u driver_id data) st)
      as [-> | (u & Hu & Ha & ->)]; [done|].
    by apply (reachable_step permitted st (UpdateDriver u driver_id data)).
  - destruct (admin_required_cases now (authorization req)
                (λ u, delete_driver u driver_id) st)
      as [-> | (u & Hu & Ha & ->)]; [done|].
    by apply (reachable_step permitted st (DeleteDriver u driver_id)).
  - by rewrite get_rides_store.
  - destruct (admin_required_cases now (authorization req)
                (λ u, create_ride now u data) st)
      as [-> | (u & Hu & Ha & ->)]; [done|].
    by apply (reachable_step permitted st (CreateRide now u data)).
  - destruct (token_required_cases now (authorization req)
                (λ u, update_ride u ride_id data) st)
      as [-> | (u & Hu & ->)]; [done|].
    by apply (reachable_step permitted st (UpdateRide u ride_id data)).
  - destruct (admin_required_cases now (authorization req)
                (λ u, delete_ride u ride_id) st)
      as [-> | (u & Hu & Ha & ->)]; [done|].
    by apply (reachable_step permitted st (DeleteRide u ride_id)).
  - destruct (token_required_cases now (authorization req)
                (λ u, book_ride u ride_id) st)
      as [-> | (u & Hu & ->)]; [done|].
    by apply (reachable_step permitted st (BookRide u ride_id)).
  - destruct (admin_required_cases now (authorization req)
                admin_dashboard st)
      as [-> | (u & Hu & Ha & ->)]; [done|].
    by rewrite admin_dashboard_store.
Qed.

End guards.

(** ** Strings the parser rejects *)

(** A non-empty [date] argument that is no ISO date makes [get_rides]
    answer 500 with the parser's message. *)
Lemma get_rides_bad_date (status vehicle_type : option string)
    (s : IsoString) (msg : string) (st : Store) :
  text s ≠ "" → fromisoformat s = ValueError msg →
  get_rides status vehicle_type (Some s) st = (st, (JError msg, 500)).
Proof.
  intros Hne Hbad. unfold get_rides, try_except, iso_date.
  rewrite decide_False by done. by rewrite Hbad.
Qed.

(** A patch whose [date] is no ISO date makes [update_ride] answer 500 and
    roll back, whatever else the patch holds. *)
Lemma update_ride_bad_date (u : Z * User.t) (ride_id : Z) (data : RideJson.t)
    (s : IsoString) (msg : string) (ride : Ride.t) (st : Store) :
  rides st !! ride_id = Some ride →
  RideJson.date data = Some s → fromisoformat s = ValueError msg →
  update_ride u ride_id data st = (st, (JError msg, 500)).
Proof.
  intros Hride Hdate Hbad. unfold update_ride, try_except, iso_date.
  by rewrite Hride, Hdate, Hbad.
Qed.

(** ** Splitting and joining *)

Lemma split_not_nil (sep : ascii) (s : string) : split sep s ≠ [].
Proof.
  destruct s as [|c rest]; simpl; [done|].
  destruct (Ascii.eqb c sep); [done|]. by destruct (split sep rest).
Qed.

Lemma split_no_occurrence (sep : ascii) (s : string) :
  ¬ occurs sep s → split sep s = [s].
Proof.
  induction s as [|c rest IH]; simpl; [done|]. intros Hno.
  destruct (Ascii.eqb_spec c sep) as [->|Hne]; [by destruct Hno; left|].
  rewrite IH; [done|]. intros Hin. apply Hno. by right.
Qed.

Lemma split_app (sep : ascii) (word rest : string) :
  ¬ occurs sep word →
  split sep (word +:+ String sep rest) = word :: split sep rest.
Proof.
  induction word as [|c word IH]; simpl; intros Hno.
  - by rewrite Ascii.eqb_refl.
  - destruct (Ascii.eqb_spec c sep) as [->|Hne]; [by destruct Hno; left|].
    rewrite IH; [done|]. intros Hin. apply Hno. by right.
Qed.

(** Joining the pieces of [s.split(sep)] with the separator gives
    [s] back; there is at least one piece and no piece contains the
    separator. *)
Theorem join_split (sep : ascii) (s : string) :
  join sep (split sep s) = s ∧
  split sep s ≠ [] ∧
  Forall (λ word, ¬ occurs sep word) (split sep s).
Proof.
  split; [|split; [apply split_not_nil|]].
  - induction s as [|c rest IH]; simpl; [done|].
    pose proof (split_not_nil sep rest) as Hne.
    destruct (Ascii.eqb_spec c sep) as [->|Hc].
    + destruct (split sep rest) as [|word words]; [done|]. simpl in *.
      by rewrite IH.
    + destruct (split sep rest) as [|word words]; [done|].
      destruct words as [|word' words]; simpl in *; by rewrite <- IH.
  - induction s as [|c rest IH]; simpl.
    + constructor; [|constructor]. by intros [].
    + destruct (Ascii.eqb_spec c sep) as [->|Hc].
      * constructor; [by intros []|done].
      * pose proof (split_not_nil sep rest) as Hne.
        destruct (split sep rest) as [|word words]; [done|].
        apply Forall_cons in IH as [Hword Hwords].
        constructor; [|done]. simpl. by intros [?|?].
Qed.

(** Conversely, splitting the join of a non-empty list of words that
    are free of the separator gives the words back. *)
Theorem split_join (sep : ascii) (words : list string) :
  words ≠ [] → Forall (λ word, ¬ occurs sep word) words →
  split sep (join sep words) = words.
Proof.
  induction words as [|word words IH]; [done|]. intros _ Hwords.
  apply Forall_cons in Hwords as [Hword Hwords].
  destruct words as [|word' words].
  - simpl. by apply split_no_occurrence.
  - change (join sep (word :: word' :: words))
      with (word +:+ String sep (join sep (word' :: words))).
    rewrite split_app by done. by rewrite IH.
Qed.

Lemma split_join_witness :
  split " " (join " " ["Bearer"; "abc.def"; "x"]) = ["Bearer"; "abc.def"; "x"].
Proof.
  apply (split_join " " ["Bearer"; "abc.def"; "x"]).
  - discriminate.
  - repeat constructor; simpl; intros H;
      repeat (destruct H as [H|H]; [discriminate H|]); exact H.
Defined.

(** ** What each call does to the store *)

Section effects.
Context `{!Externals}.

(** Each call either gives the store back or commits one change, which
    the lemmas below describe. *)
Lemma register_effect (now : Z) (salt : string) (data : RegisterJson.t)
    (st : Store) :
  (register now salt data st).1 = st ∨
  ∃ user,
    users st !! next_id (users st) = None ∧
    (∀ i u, users st !! i = Some u →
            User.username u ≠ User.username user ∧
            User.phone_no u ≠ User.phone_no user) ∧
    (register now salt data st).1
    = {| users := <[next_id (users st) := user]> (users st);
         drivers := drivers st; rides := rides st |}.
Proof.
  unfold register, try_except, required.
  destruct (RegisterJson.username data) as [username|]; [|by left].
  destruct (RegisterJson.phone_no data) as [phone_no|]; [|by left].
  destruct (RegisterJson.password data) as [password|]; [|by left].
  destruct (RegisterJson.full_name data) as [full_name|]; [|by left].
  destruct (first (filter_by (λ u, User.username u = username) _))
    eqn:Eu; [by left|].
  destruct (first (filter_by (λ u, User.phone_no u = phone_no) _))
    eqn:Ep; [by left|].
  rewrite first_filter_by_None in Eu. rewrite first_filter_by_None in Ep.
  right. eexists. split; [apply next_id_fresh|]. split; [|reflexivity].
  intros i u Hiu. simpl. split; [by apply (Eu i) | by apply (Ep i)].
Qed.

Lemma create_driver_effect (now : Z) (u : Z * User.t) (data : DriverJson.t)
    (st : Store) :
  (create_driver now u data st).1 = st ∨
  ∃ driver,
    drivers st !! next_id (drivers st) = None ∧
    (∀ i d, drivers st !! i = Some d →
            Driver.vehicle_id d ≠ Driver.vehicle_id driver) ∧
    (create_driver now u data st).1
    = {| users := users st;
         drivers := <[next_id (drivers st) := driver]> (drivers st);
         rides := rides st |}.
Proof.
  unfold create_driver, try_except, required.
  destruct (DriverJson.driver_name data); [|by left].
  destruct (DriverJson.phone_no data); [|by left].
  destruct (DriverJson.vehicle_name data); [|by left].
  destruct (DriverJson.vehicle_type data); [|by left].
  destruct (DriverJson.vehicle_id data) as [vehicle_id|]; [|by left].
  destruct (first (filter_by (λ d, Driver.vehicle_id d = vehicle_id) _))
    eqn:Ev; [by left|].
  rewrite first_filter_by_None in Ev.
  right. eexists. split; [apply next_id_fresh|]. split; [|reflexivity].
  intros i d Hid. simpl. by apply (Ev i).
Qed.

Lemma update_driver_effect (u : Z * User.t) (driver_id : Z)
    (data : DriverJson.t) (st : Store) :
  (update_driver u driver_id data st).1 = st ∨
  ∃ old driver,
    drivers st !! driver_id = Some old ∧
    Driver.vehicle_id driver = Driver.vehicle_id old ∧
    (update_driver u driver_id data st).1
    = {| users := users st;
         drivers := <[driver_id := driver]> (drivers st);
         rides := rides st |}.
Proof.
  unfold update_driver, try_except.
  destruct (drivers st !! driver_id) as [old|]; [|by left].
  right. eexists old, _. split; [done|]. split; [|reflexivity]. done.
Qed.

Lemma delete_driver_effect (u : Z * User.t) (driver_id : Z) (st : Store) :
  (delete_driver u driver_id st).1 = st ∨
  (delete_driver u driver_id st).1
  = {| users := users st;
       drivers := delete driver_id (drivers st);
       rides := rides st ∖ Driver_rides driver_id st |}.
Proof.
  unfold delete_driver, try_except.
  destruct (drivers st !! driver_id); [by right | by left].
Qed.

Lemma create_ride_effect (now : Z) (u : Z * User.t) (data : RideJson.t)
    (st : Store) :
  (create_ride now u data st).1 = st ∨
  ∃ ride driver,
    rides st !! next_id (rides st) = None ∧
    drivers st !! Ride.driver_id ride = Some driver ∧
    Ride.vehicle_id ride = Driver.vehicle_id driver ∧
    Ride.user_id ride = None ∧
    (create_ride now u data st).1
    = {| users := users st; drivers := drivers st;
         rides := <[next_id (rides st) := ride]> (rides st) |}.
Proof.
  unfold create_ride, try_except, required.
  destruct (RideJson.driver_id data) as [driver_id|]; [|by left].
  destruct (RideJson.date data) as [date|]; [|by left].
  destruct (RideJson.time data) as [time|]; [|by left].
  destruct (RideJson.start_location data); [|by left].
  destruct (RideJson.destination data); [|by left].
  unfold query_get. case_decide; [simpl|by left].
  destruct (drivers st !! driver_id) as [driver|] eqn:Hdriver; [|by left].
  destruct (iso_date date); [by left|]. destruct (iso_time time); [by left|].
  right. eexists _, driver. split; [apply next_id_fresh|].
  split; [|split; [|split; [|reflexivity]]]; done.
Qed.

Lemma update_ride_effect (u : Z * User.t) (ride_id : Z) (data : RideJson.t)
    (st : Store) :
  (update_ride u ride_id data st).1 = st ∨
  ∃ old ride,
    rides st !! ride_id = Some old ∧
    same_origin old ride ∧
    (Ride.user_id ride = Ride.user_id old ∨ Ride.user_id ride = Some u.1) ∧
    (update_ride u ride_id data st).1
    = {| users := users st; drivers := drivers st;
         rides := <[ride_id := ride]> (rides st) |}.
Proof.
  unfold update_ride, try_except.
  destruct (rides st !! ride_id) as [old|]; [|by left].
  destruct (match RideJson.date data with Some _ => _ | None => _ end);
    [by left|].
  destruct (match RideJson.time data with Some _ => _ | None => _ end);
    [by left|].
  right. eexists old, _. split; [done|].
  split; [|split; [|reflexivity]]; [done|]. simpl.
  destruct (RideJson.ride_status data) as [status|]; [|by left].
  case_decide; [by right | by left].
Qed.

Lemma delete_ride_effect (u : Z * User.t) (ride_id : Z) (st : Store) :
  (delete_ride u ride_id st).1 = st ∨
  (delete_ride u ride_id st).1
  = {| users := users st; drivers := drivers st;
       rides := delete ride_id (rides st) |}.
Proof.
  unfold delete_ride, try_except, query_get.
  case_decide; [simpl|by left].
  destruct (rides st !! ride_id); [by right | by left].
Qed.

Lemma book_ride_effect (u : Z * User.t) (ride_id : Z) (st : Store) :
  (book_ride u ride_id st).1 = st ∨
  ∃ old ride,
    rides st !! ride_id = Some old ∧
    same_origin old ride ∧
    Ride.user_id ride = Some u.1 ∧
    (book_ride u ride_id st).1
    = {| users := users st; drivers := drivers st;
         rides := <[ride_id := ride]> (rides st) |}.
Proof.
  unfold book_ride, try_except, query_get.
  case_decide; [simpl|by left].
  destruct (rides st !! ride_id) as [old|]; [|by left].
  case_decide; [by left|]. right. eexists old, _.
  split; [done|]. split; [|split; [|reflexivity]]; done.
Qed.

End effects.

(** ** Invariants of the reachable stores *)

Section invariants.
Context `{!Externals}.

(** The calls other than [register] leave the users alone, and the calls
    on rides leave the drivers alone. *)
Lemma run_users (op : Op) (st : Store) :
  (∀ now salt data, op ≠ Register now salt data) →
  users (run op st).1 = users st.
Proof.
  intros Hop. destruct op as [now salt data | now u data | u driver_id data
    | u driver_id | now u data | u ride_id data | u ride_id | u ride_id];
    simpl.
  - by destruct (Hop now salt data).
  - by destruct (create_driver_effect now u data st) as [-> | (? & _ & _ & ->)].
  - by destruct (update_driver_effect u driver_id data st)
      as [-> | (? & ? & _ & _ & ->)].
  - by destruct (delete_driver_effect u driver_id st) as [-> | ->].
  - by destruct (create_ride_effect now u data st)
      as [-> | (? & ? & _ & _ & _ & _ & ->)].
  - by destruct (update_ride_effect u ride_id data st)
      as [-> | (? & ? & _ & _ & _ & ->)].
  - by destruct (delete_ride_effect u ride_id st) as [-> | ->].
  - by destruct (book_ride_effect u ride_id st) as [-> | (? & ? & _ & _ & _ & ->)].
Qed.

(** No call removes or alters a user: every row of the users table
    is still there, unchanged, after any call. *)
Lemma users_never_removed (op : Op) (st : Store) :
  users st ⊆ users (run op st).1.
Proof.
  destruct op as [now salt data | | | | | | |];
    [|rewrite run_users; done..].
  simpl. destruct (register_effect now salt data st)
    as [-> | (user & Hfresh & _ & ->)]; [done|].
  by apply insert_subseteq.
Qed.

Lemma users_unique_step (op : Op) (st : Store) :
  users_unique st → users_unique (run op st).1.
Proof.
  intros Huniq. destruct op as [now salt data | | | | | | |];
    [|unfold users_unique; rewrite run_users; done..].
  simpl. destruct (register_effect now salt data st)
    as [-> | (user & Hfresh & Hnew & ->)]; [done|].
  intros i j ui uj. simpl. rewrite !lookup_insert.
  repeat case_decide; intros Hi Hj Heq; simplify_eq/=; try done.
  - destruct (Hnew _ _ Hj) as [Hu Hp]. destruct Heq as [E | E];
      [by rewrite E in Hu | by rewrite E in Hp].
  - destruct (Hnew _ _ Hi) as [Hu Hp]. by destruct Heq.
  - by apply (Huniq i j ui uj).
Qed.

(** X1.  In every store the application can reach, no two users have the
    same username and no two have the same phone number. *)
Theorem users_unique_reachable (st : Store) :
  reachable st → users_unique st.
Proof.
  induction 1 as [|st op Hst IH Hop].
  - intros i j ui uj Hi. simpl in Hi. by rewrite lookup_empty in Hi.
  - by apply users_unique_step.
Qed.

Lemma vehicle_ids_unique_step (op : Op) (st : Store) :
  vehicle_ids_unique st → vehicle_ids_unique (run op st).1.
Proof.
  intros Huniq. destruct op as [now salt data | now u data | u driver_id data
    | u driver_id | now u data | u ride_id data | u ride_id | u ride_id];
    simpl.
  - by destruct (register_effect now salt data st) as [-> | (? & _ & _ & ->)].
  - destruct (create_driver_effect now u data st)
      as [-> | (driver & Hfresh & Hnew & ->)]; [done|].
    intros i j di dj. simpl. rewrite !lookup_insert.
    repeat case_decide; intros Hi Hj Heq; simplify_eq/=; try done.
    + by destruct (Hnew _ _ Hj).
    + by destruct (Hnew _ _ Hi).
    + by apply (Huniq i j di dj).
  - destruct (update_driver_effect u driver_id data st)
      as [-> | (old & driver & Hold & Hsame & ->)]; [done|].
    intros i j di dj. simpl. rewrite !lookup_insert.
    repeat case_decide; intros Hi Hj Heq; simplify_eq/=; try done.
    + rewrite Hsame in Heq. by apply (Huniq _ _ _ _ Hold Hj).
    + rewrite Hsame in Heq. by apply (Huniq _ _ _ _ Hi Hold).
    + by apply (Huniq i j di dj).
  - destruct (delete_driver_effect u driver_id st) as [-> | ->]; [done|].
    intros i j di dj. simpl. rewrite !lookup_delete_Some.
    intros [_ Hi] [_ Hj]. by apply (Huniq i j di dj).
  - by destruct (create_ride_effect now u data st)
      as [-> | (? & ? & _ & _ & _ & _ & ->)].
  - by destruct (update_ride_effect u ride_id data st)
      as [-> | (? & ? & _ & _ & _ & ->)].
  - by destruct (delete_ride_effect u ride_id st) as [-> | ->].
  - by destruct (book_ride_effect u ride_id st)
      as [-> | (? & ? & _ & _ & _ & ->)].
Qed.

(** X2.  In every store the application can reach, no two drivers have
    the same vehicle id. *)
Theorem vehicle_ids_unique_reachable (st : Store) :
  reachable st → vehicle_ids_unique st.
Proof.
  induction 1 as [|st op Hst IH Hop].
  - intros i j di dj Hi. simpl in Hi. by rewrite lookup_empty in Hi.
  - by apply vehicle_ids_unique_step.
Qed.

Lemma rides_refer_step (op : Op) (st : Store) :
  rides_refer st → rides_refer (run op st).1.
Proof.
  intros Href. destruct op as [now salt data | now u data | u driver_id data
    | u driver_id | now u data | u ride_id data | u ride_id | u ride_id];
    simpl.
  - by destruct (register_effect now salt data st) as [-> | (? & _ & _ & ->)].
  - destruct (create_driver_effect now u data st)
      as [-> | (driver & Hfresh & _ & ->)]; [done|].
    intros i r Hir. simpl in *. destruct (Href i r Hir) as (d & Hd & Hv).
    exists d. split; [|done]. rewrite lookup_insert_ne; [done|].
    intros E. rewrite E in Hfresh. congruence.
  - destruct (update_driver_effect u driver_id data st)
      as [-> | (old & driver & Hold & Hsame & ->)]; [done|].
    intros i r Hir. simpl in *. destruct (Href i r Hir) as (d & Hd & Hv).
    rewrite lookup_insert. case_decide as E; [|by exists d].
    exists driver. split; [done|]. rewrite <- E in Hd. congruence.
  - destruct (delete_driver_effect u driver_id st) as [-> | ->]; [done|].
    intros i r. simpl. rewrite lookup_difference_Some. intros [Hir Hnot].
    destruct (Href i r Hir) as (d & Hd & Hv). exists d. split; [|done].
    rewrite lookup_delete_ne; [done|]. intros E.
    assert (Driver_rides driver_id st !! i = Some r) as Hin
      by (by apply lookup_Driver_rides).
    congruence.
  - destruct (create_ride_effect now u data st)
      as [-> | (ride & driver & _ & Hdriver & Hv & _ & ->)]; [done|].
    intros i r. simpl. rewrite lookup_insert.
    case_decide; [intros [= <-]; by exists driver | apply Href].
  - destruct (update_ride_effect u ride_id data st)
      as [-> | (old & ride & Hold & (Hd & _ & _ & Hv & _) & _ & ->)]; [done|].
    intros i r. simpl. rewrite lookup_insert.
    case_decide; [intros [= <-] | apply Href].
    destruct (Href _ _ Hold) as (d & Hdrv & Hvid). exists d.
    rewrite Hd, Hv. done.
  - destruct (delete_ride_effect u ride_id st) as [-> | ->]; [done|].
    intros i r. simpl. rewrite lookup_delete_Some. intros [_ Hir].
    by apply (Href i).
  - destruct (book_ride_effect u ride_id st)
      as [-> | (old & ride & Hold & (Hd & _ & _ & Hv & _) & _ & ->)]; [done|].
    intros i r. simpl. rewrite lookup_insert.
    case_decide; [intros [= <-] | apply Href].
    destruct (Href _ _ Hold) as (d & Hdrv & Hvid). exists d.
    rewrite Hd, Hv. done.
Qed.

(** X3.  In every store the application can reach, each ride's driver is
    a driver of the store, and the vehicle id copied into the ride when
    it was created is still that driver's vehicle id. *)
Theorem rides_refer_reachable (st : Store) :
  reachable st → rides_refer st.
Proof.
  induction 1 as [|st op Hst IH Hop].
  - intros i r Hi. simpl in Hi. by rewrite lookup_empty in Hi.
  - by apply rides_refer_step.
Qed.

Lemma bookings_refer_step (op : Op) (st : Store) :
  permitted op st → bookings_refer st → bookings_refer (run op st).1.
Proof.
  intros Hop Href.
  assert (∀ i r user, rides st !! i = Some r → Ride.user_id r = Some user →
                      is_Some (users (run op st).1 !! user)) as Hkeep.
  { intros i r user Hir Hu. destruct (Href i r user Hir Hu) as [x Hx].
    exists x. by apply (lookup_weaken _ _ _ _ Hx), users_never_removed. }
  destruct op as [now salt data | now u data | u driver_id data
    | u driver_id | now u data | u ride_id data | u ride_id | u ride_id];
    simpl in *.
  - destruct (register_effect now salt data st)
      as [E | (? & _ & _ & E)]; rewrite E in *; [done|].
    intros i r user. simpl. apply Hkeep.
  - by destruct (create_driver_effect now u data st)
      as [-> | (? & _ & _ & ->)].
  - by destruct (update_driver_effect u driver_id data st)
      as [-> | (? & ? & _ & _ & ->)].
  - destruct (delete_driver_effect u driver_id st) as [-> | ->]; [done|].
    intros i r user. simpl. rewrite lookup_difference_Some.
    intros [Hir _]. by apply (Href i).
  - destruct (create_ride_effect now u data st)
      as [-> | (ride & ? & _ & _ & _ & Hnone & ->)]; [done|].
    intros i r user. simpl. rewrite lookup_insert.
    case_decide; [intros [= <-]; congruence | apply Href].
  - destruct (update_ride_effect u ride_id data st)
      as [-> | (old & ride & Hold & _ & Hu & ->)]; [done|].
    intros i r user. simpl. rewrite lookup_insert.
    case_decide; [intros [= <-] | apply Href].
    destruct Hu as [-> | ->]; [by apply (Href ride_id old)|].
    intros [= <-]. by eexists.
  - destruct (delete_ride_effect u ride_id st) as [-> | ->]; [done|].
    intros i r user. simpl. rewrite lookup_delete_Some.
    intros [_ Hir]. by apply (Href i).
  - destruct (book_ride_effect u ride_id st)
      as [-> | (old & ride & Hold & _ & Hu & ->)]; [done|].
    intros i r user. simpl. rewrite lookup_insert.
    case_decide; [intros [= <-] | apply Href].
    rewrite Hu. intros [= <-]. by eexists.
Qed.

(** X4.  In every store the application can reach, the booking user of a
    ride is a user of the store. *)
Theorem bookings_refer_reachable (st : Store) :
  reachable st → bookings_refer st.
Proof.
  induction 1 as [|st op Hst IH Hop].
  - intros i r u Hi. simpl in Hi. by rewrite lookup_empty in Hi.
  - by apply bookings_refer_step.
Qed.

End invariants.

(** ** Refusals of registration and login *)

Section refusals.
Context `{!Externals}.

(** X5.  [register] refuses a body that lacks a required field with 400,
    naming the first missing field in the order username, phone_no,
    password, full_name.  It refuses a complete body with 409 "Username
    already exists" when some user has the username, whatever the phone
    number, and with 409 "Phone number already registered" when no user
    has the username but some user has the phone number.  A refusal
    leaves the store as it is. *)
Theorem register_refusals (now : Z) (salt : string) (data : RegisterJson.t)
    (st : Store) :
  (∀ field,
     head (filter (λ f, f.2 = false)
             [("username", bool_decide (is_Some (RegisterJson.username data)));
              ("phone_no", bool_decide (is_Some (RegisterJson.phone_no data)));
              ("password", bool_decide (is_Some (RegisterJson.password data)));
              ("full_name", bool_decide (is_Some (RegisterJson.full_name data)))])
     = Some (field, false) →
     register now salt data st
     = (st, (JError ("Missing required field: " +:+ field), 400))) ∧
  (∀ i u, complete data → users st !! i = Some u →
     RegisterJson.username data = Some (User.username u) →
     register now salt data st = (st, (JError "Username already exists", 409))) ∧
  (∀ i u, complete data → users st !! i = Some u →
     (∀ j u', users st !! j = Some u' →
              RegisterJson.username data ≠ Some (User.username u')) →
     RegisterJson.phone_no data = Some (User.phone_no u) →
     register now salt data st
     = (st, (JError "Phone number already registered", 409))).
Proof.
  split; [|split].
  - intros field. unfold register, try_except, required.
    destruct (RegisterJson.username data); [|by intros [= <-]].
    destruct (RegisterJson.phone_no data); [|by intros [= <-]].
    destruct (RegisterJson.password data); [|by intros [= <-]].
    destruct (RegisterJson.full_name data); [|by intros [= <-]].
    intros [=].
  - intros i u ([name Hu] & [phone Hp] & [pw Hpw] & [full Hf]) Hiu Hname.
    unfold register, try_except, required. rewrite Hu, Hp, Hpw, Hf.
    rewrite Hu in Hname. injection Hname as ->.
    by destruct (first_filter_by_is_Some
                   (λ u0, User.username u0 = User.username u)
                   (users st) i u Hiu eq_refl) as [e ->].
  - intros i u ([name Hu] & [phone Hp] & [pw Hpw] & [full Hf]) Hiu Hfree Hphone.
    unfold register, try_except, required. rewrite Hu, Hp, Hpw, Hf.
    rewrite Hp in Hphone. injection Hphone as ->.
    destruct (first (filter_by (λ u0, User.username u0 = name) _))
      as [e|] eqn:Eu.
    { apply first_filter_by_Some in Eu as [He HP].
      destruct (Hfree _ _ He). by rewrite Hu, HP. }
    by destruct (first_filter_by_is_Some
                   (λ u0, User.phone_no u0 = User.phone_no u)
                   (users st) i u Hiu eq_refl) as [e ->].
Qed.

(** X6.  [login] never writes the store.  It answers 400 when the body
    lacks the username or the password.  When it answers 200, some user
    of the store has the username, the password has been checked against
    that user's hash, and the token signs that user's id, username and
    admin flag with an expiry seven days after the request. *)
Theorem login_answers (now : Z) (data : LoginJson.t) (st : Store) :
  (login now data st).1 = st ∧
  (LoginJson.username data = None ∨ LoginJson.password data = None →
   login now data st = (st, (JError "Username and password required", 400))) ∧
  (∀ body, (login now data st).2 = (body, 200) →
     ∃ i u password,
       users st !! i = Some u ∧
       LoginJson.username data = Some (User.username u) ∧
       LoginJson.password data = Some password ∧
       check_password_hash (User.password_hash u) password = true ∧
       body = JLogin "Login successful"
                (jwt_encode {| claim_user_id := i;
                               claim_username := User.username u;
                               claim_is_admin := User.is_admin u;
                               claim_exp := now + timedelta_days 7 |})
                (User.to_dict (i, u))).
Proof.
  unfold login, try_except. split; [|split].
  - repeat case_match; by simplify_eq/=.
  - intros [-> | ->]; [done|]. by destruct (LoginJson.username data).
  - intros body.
    destruct (LoginJson.username data) as [name|]; [|by intros [=]].
    destruct (LoginJson.password data) as [password|]; [|by intros [=]].
    destruct (first (filter_by (λ u, User.username u = name) _))
      as [[i u]|] eqn:E; [|by intros [=]].
    apply first_filter_by_Some in E as [Hiu Hname]. simpl in *.
    destruct (check_password_hash (User.password_hash u) password) eqn:Hcheck;
      [|by intros [=]].
    intros [= <-]. exists i, u, password. by rewrite Hname.
Qed.

End refusals.

(** ** Creating, deleting and reading back *)

Section writes.
Context `{!Externals}.

(** X7.  With all five required fields and a driver id that SQLite can
    bind (64 bits, signed), [create_ride] answers 404 and writes nothing
    when the driver id is not a driver; when it is and the date and time
    strings parse, it answers 201 and adds one ride under a key not in
    use, so that no existing ride is overwritten.  The new ride has no
    booking user, the status of the body or 'available', and the name,
    vehicle type and vehicle id the driver has at that moment.  For a
    driver id beyond that range the lookup raises, and the answer is 500
    with nothing written. *)
Theorem create_ride_contract (now : Z) (u : Z * User.t) (data : RideJson.t)
    (st : Store) (driver_id : Z) (date time : IsoString)
    (start_location destination : string) :
  RideJson.driver_id data = Some driver_id →
  RideJson.date data = Some date →
  RideJson.time data = Some time →
  RideJson.start_location data = Some start_location →
  RideJson.destination data = Some destination →
  (¬ sqlite_integer driver_id →
   create_ride now u data st
   = (st, (JError "Python int too large to convert to SQLite INTEGER", 500))) ∧
  (sqlite_integer driver_id →
   (drivers st !! driver_id = None →
    create_ride now u data st = (st, (JError "Driver not found", 404))) ∧
   (∀ driver d t0 d0 t,
      drivers st !! driver_id = Some driver →
      fromisoformat date = Datetime d t0 →
      fromisoformat time = Datetime d0 t →
      ∃ ride,
        create_ride now u data st
        = ({| users := users st; drivers := drivers st;
              rides := <[next_id (rides st) := ride]> (rides st) |},
           (JRide "Ride created successfully" (next_id (rides st), ride),
            201)) ∧
        rides st !! next_id (rides st) = None ∧
        Ride.driver_id ride = driver_id ∧
        Ride.user_id ride = None ∧
        Ride.ride_status ride
        = default "available" (RideJson.ride_status data) ∧
        Ride.driver_name ride = Driver.driver_name driver ∧
        Ride.vehicle_type ride = Driver.vehicle_type driver ∧
        Ride.vehicle_id ride = Driver.vehicle_id driver ∧
        Ride.date ride = d ∧
        Ride.time ride = t ∧
        Ride.created_at ride = now)).
Proof.
  intros Hid Hdate Htime Hstart Hdest.
  unfold create_ride, try_except, required.
  rewrite Hid, Hdate, Htime, Hstart, Hdest. split.
  - intros Hrange. by rewrite query_get_overflow.
  - intros Hrange. rewrite query_get_bound by done. simpl. split.
    + by intros ->.
    + intros driver d t0 d0 t -> Hd Ht. unfold iso_date, iso_time.
      rewrite Hd, Ht. simpl. eexists. split; [reflexivity|].
      split; [apply next_id_fresh|]. by split_and!.
Qed.

(** X8.  With all five required fields, [create_driver] answers 409 and
    writes nothing when some driver has the vehicle id; otherwise it
    answers 201 and adds one driver under a key not in use, available and
    with the placeholder photos unless the body says otherwise. *)
Theorem create_driver_contract (now : Z) (u : Z * User.t)
    (data : DriverJson.t) (st : Store)
    (driver_name phone_no vehicle_name vehicle_type vehicle_id : string) :
  DriverJson.driver_name data = Some driver_name →
  DriverJson.phone_no data = Some phone_no →
  DriverJson.vehicle_name data = Some vehicle_name →
  DriverJson.vehicle_type data = Some vehicle_type →
  DriverJson.vehicle_id data = Some vehicle_id →
  (∀ i d, drivers st !! i = Some d → Driver.vehicle_id d = vehicle_id →
     create_driver now u data st
     = (st, (JError "Vehicle ID already exists", 409))) ∧
  ((∀ i d, drivers st !! i = Some d → Driver.vehicle_id d ≠ vehicle_id) →
   ∃ driver,
     create_driver now u data st
     = ({| users := users st;
           drivers := <[next_id (drivers st) := driver]> (drivers st);
           rides := rides st |},
        (JDriver "Driver created successfully"
                 (next_id (drivers st), driver), 201)) ∧
     drivers st !! next_id (drivers st) = None ∧
     Driver.vehicle_id driver = vehicle_id ∧
     Driver.is_available driver
     = default true (DriverJson.is_available data) ∧
     Driver.vehicle_photo driver
     = default "default-vehicle.jpg" (DriverJson.vehicle_photo data) ∧
     Driver.driver_photo driver
     = default "default-driver.jpg" (DriverJson.driver_photo data)).
Proof.
  intros Hn Hp Hvn Hvt Hvi.
  unfold create_driver, try_except, required.
  rewrite Hn, Hp, Hvn, Hvt, Hvi. split.
  - intros i d Hid Hv.
    by destruct (first_filter_by_is_Some
                   (λ d0, Driver.vehicle_id d0 = vehicle_id)
                   (drivers st) i d Hid Hv) as [e ->].
  - intros Hfree.
    destruct (first (filter_by (λ d, Driver.vehicle_id d = vehicle_id) _))
      as [e|] eqn:E.
    { apply first_filter_by_Some in E as [He HP]. by destruct (Hfree _ _ He). }
    eexists. split; [reflexivity|]. split; [apply next_id_fresh|].
    by split_and!.
Qed.

(** What a view answers about a ride is what the store then holds. *)
Lemma create_ride_answer (now : Z) (u : Z * User.t) (data : RideJson.t)
    (st st' : Store) (msg : string) (ride : Z * Ride.t) (code : Z) :
  create_ride now u data st = (st', (JRide msg ride, code)) →
  rides st' !! ride.1 = Some ride.2.
Proof.
  unfold create_ride, try_except, required.
  destruct (RideJson.driver_id data) as [driver_id|]; [|by intros [=]].
  destruct (RideJson.date data) as [date|]; [|by intros [=]].
  destruct (RideJson.time data) as [time|]; [|by intros [=]].
  destruct (RideJson.start_location data); [|by intros [=]].
  destruct (RideJson.destination data); [|by intros [=]].
  unfold query_get. case_decide; [simpl|by intros [=]].
  destruct (drivers st !! driver_id); [|by intros [=]].
  destruct (iso_date date); [by intros [=]|].
  destruct (iso_time time); [by intros [=]|].
  intros [= <- <- <- <-]. apply lookup_insert_eq.
Qed.

Lemma update_ride_answer (u : Z * User.t) (ride_id : Z) (data : RideJson.t)
    (st st' : Store) (msg : string) (ride : Z * Ride.t) (code : Z) :
  update_ride u ride_id data st = (st', (JRide msg ride, code)) →
  rides st' !! ride.1 = Some ride.2.
Proof.
  unfold update_ride, try_except.
  destruct (rides st !! ride_id); [|by intros [=]].
  destruct (match RideJson.date data with Some _ => _ | None => _ end);
    [by intros [=]|].
  destruct (match RideJson.time data with Some _ => _ | None => _ end);
    [by intros [=]|].
  intros [= <- <- <- <-]. apply lookup_insert_eq.
Qed.

Lemma book_ride_answer (u : Z * User.t) (ride_id : Z)
    (st st' : Store) (msg : string) (ride : Z * Ride.t) (code : Z) :
  book_ride u ride_id st = (st', (JRide msg ride, code)) →
  rides st' !! ride.1 = Some ride.2.
Proof.
  unfold book_ride, try_except, query_get.
  case_decide; [simpl|by intros [=]].
  destruct (rides st !! ride_id); [|by intros [=]].
  case_decide; [by intros [=]|].
  intros [= <- <- <- <-]. apply lookup_insert_eq.
Qed.

(** X9.  Reading back: the ride that [create_ride], [update_ride] or
    [book_ride] returns is the ride [get_ride] answers for its id in the
    store they leave; after a [delete_ride] that answered 200,
    [get_ride] answers 404 for the id. *)
Theorem get_ride_reads_back (st st' : Store) (u : Z * User.t) :
  (∀ now data msg ride code,
     create_ride now u data st = (st', (JRide msg ride, code)) →
     get_ride ride.1 st' = (st', (RRide ride, 200))) ∧
  (∀ ride_id data msg ride code,
     update_ride u ride_id data st = (st', (JRide msg ride, code)) →
     get_ride ride.1 st' = (st', (RRide ride, 200))) ∧
  (∀ ride_id msg ride code,
     book_ride u ride_id st = (st', (JRide msg ride, code)) →
     get_ride ride.1 st' = (st', (RRide ride, 200))) ∧
  (∀ ride_id body,
     delete_ride u ride_id st = (st', (body, 200)) →
     get_ride ride_id st' = (st', (RJson (JError "Ride not found"), 404))).
Proof.
  unfold get_ride, try_except_read. split_and!.
  - intros now data msg [i r] code Hans.
    by rewrite (create_ride_answer _ _ _ _ _ _ _ _ Hans).
  - intros ride_id data msg [i r] code Hans.
    by rewrite (update_ride_answer _ _ _ _ _ _ _ _ Hans).
  - intros ride_id msg [i r] code Hans.
    by rewrite (book_ride_answer _ _ _ _ _ _ _ Hans).
  - intros ride_id body. unfold delete_ride, try_except, query_get.
    case_decide; [simpl|by intros [=]].
    destruct (rides st !! ride_id); [|by intros [=]].
    intros [= <- <-]. simpl. by rewrite lookup_delete_eq.
Qed.

(** X10.  For a ride id that SQLite can bind (64 bits, signed),
    [delete_ride] answers 404 and writes nothing when the id is not a
    ride; otherwise it removes that ride and nothing else, and a second
    [delete_ride] of the id answers 404.  For an id beyond that range the
    lookup raises, and the answer is 500 with nothing written. *)
Theorem delete_ride_contract (u : Z * User.t) (ride_id : Z) (st : Store) :
  (¬ sqlite_integer ride_id →
   delete_ride u ride_id st
   = (st, (JError "Python int too large to convert to SQLite INTEGER", 500))) ∧
  (sqlite_integer ride_id →
   (rides st !! ride_id = None →
    delete_ride u ride_id st = (st, (JError "Ride not found", 404))) ∧
   (∀ ride, rides st !! ride_id = Some ride →
      ∃ st',
        delete_ride u ride_id st
        = (st', (JMessage "Ride deleted successfully", 200)) ∧
        rides st' !! ride_id = None ∧
        (∀ i, i ≠ ride_id → rides st' !! i = rides st !! i) ∧
        users st' = users st ∧
        drivers st' = drivers st ∧
        ∀ u', delete_ride u' ride_id st'
              = (st', (JError "Ride not found", 404)))).
Proof.
  unfold delete_ride, try_except. split.
  - intros Hrange. by rewrite query_get_overflow.
  - intros Hrange. rewrite query_get_bound by done. simpl. split.
    + by intros ->.
    + intros ride ->. eexists. split; [reflexivity|]. simpl.
      split; [apply lookup_delete_eq|].
      split; [intros i Hi; by apply lookup_delete_ne|].
      split; [done|]. split; [done|].
      intros u'. rewrite query_get_bound by done. simpl.
      by rewrite lookup_delete_eq.
Qed.

End writes.

(** ** Updates *)

(** X11.  The two PUT views are idempotent: sending the same patch for
    the same row a second time gives the same answer and leaves the store
    as the first call left it. *)
Theorem update_idempotent (u : Z * User.t) (st : Store) :
  (∀ ride_id data,
     update_ride u ride_id data (update_ride u ride_id data st).1
     = update_ride u ride_id data st) ∧
  (∀ driver_id data,
     update_driver u driver_id data (update_driver u driver_id data st).1
     = update_driver u driver_id data st).
Proof.
  split.
  - intros ride_id data. unfold update_ride, try_except, iso_date, iso_time.
    destruct (rides st !! ride_id) as [ride|] eqn:Hride;
      [|simpl; by rewrite Hride].
    destruct (RideJson.date data) as [sd|], (RideJson.time data) as [stime|];
      repeat match goal with
             | |- context [fromisoformat ?s] => destruct (fromisoformat s)
             end;
      simpl; rewrite ?Hride, ?lookup_insert_eq; simpl;
      rewrite ?insert_insert_eq; try done;
      destruct (RideJson.start_location data), (RideJson.destination data),
        (RideJson.ride_status data), (RideJson.cargo_type data),
        (RideJson.notes data); simpl; try case_decide; done.
  - intros driver_id data. unfold update_driver, try_except.
    destruct (drivers st !! driver_id) as [driver|] eqn:Hdriver;
      [|simpl; by rewrite Hdriver].
    simpl. rewrite lookup_insert_eq, insert_insert_eq.
    destruct (DriverJson.driver_name data), (DriverJson.phone_no data),
      (DriverJson.vehicle_name data), (DriverJson.vehicle_type data),
      (DriverJson.vehicle_photo data), (DriverJson.driver_photo data),
      (DriverJson.is_available data); done.
Qed.

(** X12.  [update_ride] on an existing ride answers 500 and writes
    nothing, or answers 200 and writes that ride alone.  The ride keeps
    its driver id, the driver's name, vehicle type and vehicle id copied
    at creation, and its creation time; its booking user is kept unless
    the patch sets the status 'booked', so an update never clears a
    booking user. *)
Theorem update_ride_frame (u : Z * User.t) (ride_id : Z) (data : RideJson.t)
    (st : Store) (ride : Ride.t) :
  rides st !! ride_id = Some ride →
  (∃ msg, update_ride u ride_id data st = (st, (JError msg, 500))) ∨
  (∃ updated,
     update_ride u ride_id data st
     = ({| users := users st; drivers := drivers st;
           rides := <[ride_id := updated]> (rides st) |},
        (JRide "Ride updated successfully" (ride_id, updated), 200)) ∧
     same_origin ride updated ∧
     (RideJson.ride_status data ≠ Some "booked" →
      Ride.user_id updated = Ride.user_id ride) ∧
     (Ride.user_id ride ≠ None → Ride.user_id updated ≠ None)).
Proof.
  intros Hride. unfold update_ride, try_except. rewrite Hride.
  destruct (match RideJson.date data with Some _ => _ | None => _ end);
    [left; by eexists|].
  destruct (match RideJson.time data with Some _ => _ | None => _ end);
    [left; by eexists|].
  right. eexists. split; [reflexivity|]. split; [done|]. simpl.
  destruct (RideJson.ride_status data) as [status|]; [|done].
  case_decide; [subst|done]. split; [done|]. by intros _.
Qed.

(** ** Booking and the dashboards *)

(** Writing a row over an existing one moves the count of a filter by the
    difference between the two rows. *)
Lemma size_filter_insert {A} (P : A → Prop) `{∀ x, Decision (P x)}
    (m : gmap Z A) (i : Z) (old new : A) :
  m !! i = Some old →
  (size (filter (λ e, P e.2) (<[i := new]> m))
   + (if decide (P old) then 1 else 0)
   = size (filter (λ e, P e.2) m) + (if decide (P new) then 1 else 0))%nat.
Proof.
  intros Hold.
  assert (∀ x, size (filter (λ e : Z * A, P e.2) (<[i := x]> (delete i m)))
               = (size (filter (λ e : Z * A, P e.2) (delete i m))
                  + (if decide (P x) then 1 else 0))%nat) as Hsize.
  { intros x. rewrite map_filter_insert. simpl. destruct (decide (P x)).
    - rewrite map_size_insert_None; [lia|].
      apply map_lookup_filter_None. left. apply lookup_delete_eq.
    - rewrite delete_delete_eq. lia. }
  rewrite <- (insert_delete_eq m i new), Hsize.
  rewrite <- (insert_id m i old Hold) at 2.
  rewrite <- (insert_delete_eq m i old), Hsize. lia.
Qed.

(** A booking that answers 200 found the ride 'available' and wrote it
    back 'booked'. *)
Lemma book_ride_200 (u : Z * User.t) (ride_id : Z) (st st' : Store)
    (body : Json) :
  book_ride u ride_id st = (st', (body, 200)) →
  ∃ old new,
    rides st !! ride_id = Some old ∧
    Ride.ride_status old = "available" ∧
    Ride.ride_status new = "booked" ∧
    st' = {| users := users st; drivers := drivers st;
             rides := <[ride_id := new]> (rides st) |}.
Proof.
  unfold book_ride, try_except, query_get.
  case_decide; [simpl|by intros [=]].
  destruct (rides st !! ride_id) as [old|]; [|by intros [=]].
  case_decide as Hs; [by intros [=]|].
  intros [= <- <-]. eexists old, _. split; [done|].
  split; [by destruct (decide (Ride.ride_status old = "available"))|].
  split; [|reflexivity]. done.
Qed.

(** X13.  A booking shows in the admin dashboard: after a [book_ride]
    that answered 200 the dashboard counts one available ride less and
    one booked ride more; the other four counts are as before. *)
Theorem book_ride_moves_counts (u a : Z * User.t) (ride_id : Z)
    (st st' : Store) (body : Json) :
  book_ride u ride_id st = (st', (body, 200)) →
  ∃ stats stats' recent recent',
    admin_dashboard a st = (st, (JAdminDashboard stats recent, 200)) ∧
    admin_dashboard a st' = (st', (JAdminDashboard stats' recent', 200)) ∧
    available_rides stats = S (available_rides stats') ∧
    booked_rides stats' = S (booked_rides stats) ∧
    completed_rides stats' = completed_rides stats ∧
    total_rides stats' = total_rides stats ∧
    total_drivers stats' = total_drivers stats ∧
    available_drivers stats' = available_drivers stats.
Proof.
  intros (old & new & Hold & Hwas & Hnow & ->)%book_ride_200.
  unfold admin_dashboard, try_except. eexists _, _, _, _.
  split; [reflexivity|]. split; [reflexivity|].
  cbn [total_drivers available_drivers total_rides available_rides
       booked_rides completed_rides rides drivers].
  rewrite !count_filter_by. unfold count, query. rewrite !length_map_to_list.
  pose proof (size_filter_insert (λ r, Ride.ride_status r = "available")
                (rides st) ride_id old new Hold) as Havailable.
  pose proof (size_filter_insert (λ r, Ride.ride_status r = "booked")
                (rides st) ride_id old new Hold) as Hbooked.
  pose proof (size_filter_insert (λ r, Ride.ride_status r = "completed")
                (rides st) ride_id old new Hold) as Hcompleted.
  cbn beta in Havailable, Hbooked, Hcompleted.
  rewrite Hwas, Hnow in Havailable, Hbooked, Hcompleted.
  rewrite decide_True in Havailable by done.
  rewrite decide_False in Havailable by done.
  rewrite decide_False in Hbooked by done.
  rewrite decide_True in Hbooked by done.
  rewrite !decide_False in Hcompleted by done.
  rewrite map_size_insert_Some by (by eexists).
  split_and!; try done; lia.
Qed.

(** ** Listing drivers *)

Section listings.
Context `{!Externals}.


End listings.

(** ** The farmer dashboard *)

#[global] Instance date_time_asc_trans : Transitive date_time_asc.
Proof.
  intros a b c. unfold date_time_asc.
  intros [Hab | [Eab Hab]] [Hbc | [Ebc Hbc]].
  - left. by apply date_lt_trans with (Ride.date b.2).
  - left. by rewrite <- Ebc.
  - left. by rewrite Eab.
  - right. split; [congruence|]. by apply time_le_trans with (Ride.time b.2).
Qed.

#[global] Instance date_time_asc_total : Total date_time_asc.
Proof.
  intros a b. unfold date_time_asc.
  destruct (date_trichotomy (Ride.date a.2) (Ride.date b.2)) as [H | [H | H]].
  - left. by left.
  - destruct (time_le_total (Ride.time a.2) (Ride.time b.2)).
    + left. right. by split.
    + right. right. by split.
  - right. by left.
Qed.

(** Two filters that exclude each other select no more than the list
    holds. *)
Lemma length_filter_exclusive {A} (P Q : A → Prop) `{∀ x, Decision (P x)}
    `{∀ x, Decision (Q x)} (l : list A) :
  (∀ x, P x → Q x → False) →
  (length (filter P l) + length (filter Q l) ≤ length l)%nat.
Proof.
  intros Hex. induction l as [|x l IH]; simpl; [done|].
  rewrite !filter_cons. destruct (decide (P x)), (decide (Q x)); simpl;
    [by destruct (Hex x) | lia..].
Qed.

Section farmer.
Context `{!Externals}.

(** X15.  [farmer_dashboard] leaves the store as it is and answers 200
    with the caller's own dictionary; the rides whose booking user is the
    caller, each once; the rides with status 'available', ordered by date
    and then time, earliest first; the drivers that are available; and
    the counts of the caller's rides: all of them, the booked and the
    completed ones, the last two together never more than the first. *)
Theorem farmer_dashboard_contract (current_user : Z * User.t) (st : Store) :
  ∃ my_rides available open_drivers stats,
    farmer_dashboard current_user st
    = (st, (RFarmerDashboard (User.to_dict current_user) my_rides available
              open_drivers stats, 200)) ∧
    (∀ i r, (i, r) ∈ my_rides ↔
            rides st !! i = Some r ∧ Ride.user_id r = Some current_user.1) ∧
    NoDup my_rides ∧
    (∀ i r, (i, r) ∈ available ↔
            rides st !! i = Some r ∧ Ride.ride_status r = "available") ∧
    StronglySorted date_time_asc available ∧
    (∀ i d, (i, d) ∈ open_drivers ↔
            drivers st !! i = Some d ∧ Driver.is_available d = true) ∧
    Farmer.total_rides stats = length my_rides ∧
    Farmer.active_rides stats
    = length (filter (λ e, Ride.ride_status e.2 = "booked") my_rides) ∧
    Farmer.completed_rides stats
    = length (filter (λ e, Ride.ride_status e.2 = "completed") my_rides) ∧
    (Farmer.active_rides stats + Farmer.completed_rides stats
     ≤ Farmer.total_rides stats)%nat.
Proof.
  unfold farmer_dashboard, try_except_read. eexists _, _, _, _.
  split; [reflexivity|]. cbn [Farmer.total_rides Farmer.active_rides
                              Farmer.completed_rides].
  split_and!; try done.
  - intros i r. by rewrite (elem_of_filter_by _ _ (i, r)).
  - apply NoDup_filter, NoDup_map_to_list.
  - intros i r. unfold order_by. rewrite merge_sort_Permutation.
    by rewrite (elem_of_filter_by _ _ (i, r)).
  - apply StronglySorted_merge_sort; apply _.
  - intros i d. by rewrite (elem_of_filter_by _ _ (i, d)).
  - apply length_filter_exclusive. intros e Hb Hc. congruence.
Qed.

End farmer.

(** ** Who can write what *)

Section authorization.
Context `{!Externals}.

(** The decorator of the contract is the general one with the identity
    for its own answers. *)
Lemma token_required_is_as (now : Z) (header : option string)
    (f : Z * User.t → View) (st : Store) :
  token_required now header f st = token_required_as id now header f st.
Proof. reflexivity. Qed.

(** The decorator answers 401 itself or runs the view for the user the
    header resolves to. *)
Lemma token_required_as_resolves {B : Type} (reply : Response → B) (now : Z)
    (header : option string) (f : Z * User.t → Store → Store * B)
    (st : Store) :
  (∃ msg, token_required_as reply now header f st
          = (st, reply (JError msg, 401))) ∨
  (∃ u, resolves now header st u ∧
        token_required_as reply now header f st = f u st).
Proof.
  unfold token_required_as.
  destruct header as [auth_header|]; [|left; by eexists].
  destruct (split " " auth_header !! 1%nat) as [token|] eqn:Hsplit;
    [|left; by eexists].
  case_decide as Htoken; [left; by eexists|].
  destruct (jwt_decode now token) as [| |data] eqn:Hdecode;
    [left; by eexists..|].
  destruct (users st !! claim_user_id data) as [row|] eqn:Hrow;
    [|left; by eexists].
  right. exists (claim_user_id data, row). split; [|done].
  by exists auth_header, token, data.
Qed.

Lemma token_required_resolves (now : Z) (header : option string)
    (f : Z * User.t → View) (st : Store) :
  (token_required now header f st).1 = st ∨
  ∃ u, resolves now header st u ∧ token_required now header f st = f u st.
Proof.
  rewrite token_required_is_as.
  destruct (token_required_as_resolves id now header f st)
    as [[msg ->] | Hu]; [by left | by right].
Qed.

Lemma admin_required_resolves (now : Z) (header : option string)
    (f : Z * User.t → View) (st : Store) :
  (admin_required now header f st).1 = st ∨
  ∃ u, resolves now header st u ∧ User.is_admin u.2 = true ∧
       admin_required now header f st = f u st.
Proof.
  unfold admin_required.
  destruct (token_required_resolves now header
              (λ current_user st,
                 if User.is_admin current_user.2 then f current_user st
                 else (st, (JError "Admin access required", 403))) st)
    as [E | (u & Hu & E)]; [by left|].
  rewrite E. destruct (User.is_admin u.2) eqn:Hadmin; [|by left].
  right. by exists u.
Qed.

(** X16.  Of the [Authorization] header the decorator reads the second
    space-separated word and nothing else: two headers with the same
    second word, or both without one, get the same answer.  The scheme
    word is never compared with 'Bearer' and further words are
    ignored. *)
Theorem token_required_second_word (now : Z) (words words' : list string)
    (f : Z * User.t → View) (st : Store) :
  words ≠ [] → words' ≠ [] →
  Forall (λ word, ¬ occurs " " word) words →
  Forall (λ word, ¬ occurs " " word) words' →
  words !! 1%nat = words' !! 1%nat →
  token_required now (Some (join " " words)) f st
  = token_required now (Some (join " " words')) f st.
Proof.
  intros Hne Hne' Hwords Hwords' Hsame. unfold token_required.
  rewrite !split_join by done. by rewrite Hsame.
Qed.


(** X18.  A request whose header resolves to no user of the store writes
    neither a driver nor a ride. *)
Theorem app_without_user (now : Z) (salt : string) (req : Request)
    (st : Store) :
  (∀ u, ¬ resolves now (authorization req) st u) →
  drivers (app now salt req st).1 = drivers st ∧
  rides (app now salt req st).1 = rides st.
Proof.
  intros Hnone. unfold app.
  destruct (route req) as [data | data | data | driver_id data | driver_id
    | status vehicle_type date | data | ride_id data | ride_id | ride_id |].
  - by destruct (register_effect now salt data st) as [-> | (? & _ & _ & ->)].
  - by rewrite login_store.
  - destruct (admin_required_resolves now (authorization req)
                (λ u, create_driver now u data) st)
      as [-> | (u & Hu & _)]; [done | by destruct (Hnone u)].
  - destruct (admin_required_resolves now (authorization req)
                (λ u, update_driver u driver_id data) st)
      as [-> | (u & Hu & _)]; [done | by destruct (Hnone u)].
  - destruct (admin_required_resolves now (authorization req)
                (λ u, delete_driver u driver_id) st)
      as [-> | (u & Hu & _)]; [done | by destruct (Hnone u)].
  - by rewrite get_rides_store.
  - destruct (admin_required_resolves now (authorization req)
                (λ u, create_ride now u data) st)
      as [-> | (u & Hu & _)]; [done | by destruct (Hnone u)].
  - destruct (token_required_resolves now (authorization req)
                (λ u, update_ride u ride_id data) st)
      as [-> | (u & Hu & _)]; [done | by destruct (Hnone u)].
  - destruct (admin_required_resolves now (authorization req)
                (λ u, delete_ride u ride_id) st)
      as [-> | (u & Hu & _)]; [done | by destruct (Hnone u)].
  - destruct (token_required_resolves now (authorization req)
                (λ u, book_ride u ride_id) st)
      as [-> | (u & Hu & _)]; [done | by destruct (Hnone u)].
  - destruct (admin_required_resolves now (authorization req)
                admin_dashboard st)
      as [-> | (u & Hu & _)]; [done | by destruct (Hnone u)].
Qed.

(** X19.  A request whose header resolves to no admin writes no driver
    and neither adds nor removes a ride; the rides it writes keep their
    driver and creation time. *)
Theorem app_without_admin (now : Z) (salt : string) (req : Request)
    (st : Store) :
  (∀ u, resolves now (authorization req) st u → User.is_admin u.2 = false) →
  drivers (app now salt req st).1 = drivers st ∧
  dom (rides (app now salt req st).1) = dom (rides st) ∧
  (∀ i r r', rides st !! i = Some r →
             rides (app now salt req st).1 !! i = Some r' →
             same_origin r r').
Proof.
  intros Hnone.
  assert (∀ st', st' = st →
            drivers st' = drivers st ∧ dom (rides st') = dom (rides st) ∧
            (∀ i r r', rides st !! i = Some r → rides st' !! i = Some r' →
                       same_origin r r')) as Hsame.
  { intros st' ->. split; [done|]. split; [done|].
    intros i r r' Hr Hr'. by simplify_eq. }
  assert (∀ ride_id old new,
            rides st !! ride_id = Some old → same_origin old new →
            dom (<[ride_id := new]> (rides st)) = dom (rides st) ∧
            (∀ i r r', rides st !! i = Some r →
                       <[ride_id := new]> (rides st) !! i = Some r' →
                       same_origin r r')) as Hwrite.
  { intros ride_id old new Hold Horigin.
    split; [by apply dom_insert_lookup_L|].
    intros i r r' Hr. rewrite lookup_insert.
    case_decide; intros; by simplify_eq. }
  unfold app.
  destruct (route req) as [data | data | data | driver_id data | driver_id
    | status vehicle_type date | data | ride_id data | ride_id | ride_id |].
  - destruct (register_effect now salt data st) as [E | (? & _ & _ & ->)];
      [by apply Hsame|].
    split; [done|]. split; [done|]. intros i r r' Hr Hr'. by simplify_eq/=.
  - apply Hsame, login_store.
  - destruct (admin_required_resolves now (authorization req)
                (λ u, create_driver now u data) st)
      as [E | (u & Hu & Ha & _)]; [by apply Hsame|].
    rewrite (Hnone u Hu) in Ha. done.
  - destruct (admin_required_resolves now (authorization req)
                (λ u, update_driver u driver_id data) st)
      as [E | (u & Hu & Ha & _)]; [by apply Hsame|].
    rewrite (Hnone u Hu) in Ha. done.
  - destruct (admin_required_resolves now (authorization req)
                (λ u, delete_driver u driver_id) st)
      as [E | (u & Hu & Ha & _)]; [by apply Hsame|].
    rewrite (Hnone u Hu) in Ha. done.
  - apply Hsame, get_rides_store.
  - destruct (admin_required_resolves now (authorization req)
                (λ u, create_ride now u data) st)
      as [E | (u & Hu & Ha & _)]; [by apply Hsame|].
    rewrite (Hnone u Hu) in Ha. done.
  - destruct (token_required_resolves now (authorization req)
                (λ u, update_ride u ride_id data) st)
      as [E | (u & Hu & ->)]; [by apply Hsame|].
    destruct (update_ride_effect u ride_id data st)
      as [E | (old & new & Hold & Horigin & _ & ->)]; [by apply Hsame|].
    split; [done|]. by apply (Hwrite ride_id old new).
  - destruct (admin_required_resolves now (authorization req)
                (λ u, delete_ride u ride_id) st)
      as [E | (u & Hu & Ha & _)]; [by apply Hsame|].
    rewrite (Hnone u Hu) in Ha. done.
  - destruct (token_required_resolves now (authorization req)
                (λ u, book_ride u ride_id) st)
      as [E | (u & Hu & ->)]; [by apply Hsame|].
    destruct (book_ride_effect u ride_id st)
      as [E | (old & new & Hold & Horigin & _ & ->)]; [by apply Hsame|].
    split; [done|]. by apply (Hwrite ride_id old new).
  - destruct (admin_required_resolves now (authorization req)
                admin_dashboard st)
      as [E | (u & Hu & Ha & _)]; [by apply Hsame|].
    rewrite (Hnone u Hu) in Ha. done.
Qed.

(** X20.  No request removes or alters a user, and only a registration
    adds one. *)
Theorem app_users (now : Z) (salt : string) (req : Request) (st : Store) :
  users st ⊆ users (app now salt req st).1 ∧
  ((∀ data, route req ≠ POST_register data) →
   users (app now salt req st).1 = users st).
Proof.
  assert (∀ f : Z * User.t → View,
            (∀ u, users (f u st).1 = users st) →
            users (token_required now (authorization req) f st).1 = users st)
    as Htoken.
  { intros f Hf.
    by destruct (token_required_resolves now (authorization req) f st)
      as [-> | (u & _ & ->)]. }
  assert (∀ f : Z * User.t → View,
            (∀ u, users (f u st).1 = users st) →
            users (admin_required now (authorization req) f st).1 = users st)
    as Hadmin.
  { intros f Hf.
    by destruct (admin_required_resolves now (authorization req) f st)
      as [-> | (u & _ & _ & ->)]. }
  assert ((∀ data, route req ≠ POST_register data) →
          users (app now salt req st).1 = users st) as Hother.
  { intros Hroute. unfold app.
    destruct (route req) as [data | data | data | driver_id data | driver_id
      | status vehicle_type date | data | ride_id data | ride_id | ride_id |].
    - by destruct (Hroute data).
    - by rewrite login_store.
    - apply Hadmin. intros u.
      by apply (run_users (CreateDriver now u data)).
    - apply Hadmin. intros u.
      by apply (run_users (UpdateDriver u driver_id data)).
    - apply Hadmin. intros u. by apply (run_users (DeleteDriver u driver_id)).
    - by rewrite get_rides_store.
    - apply Hadmin. intros u. by apply (run_users (CreateRide now u data)).
    - apply Htoken. intros u.
      by apply (run_users (UpdateRide u ride_id data)).
    - apply Hadmin. intros u. by apply (run_users (DeleteRide u ride_id)).
    - apply Htoken. intros u. by apply (run_users (BookRide u ride_id)).
    - apply Hadmin. intros u. by rewrite admin_dashboard_store. }
  split; [|done].
  destruct (route req) as [data| | | | | | | | | |] eqn:Hroute;
    [|rewrite Hother; [done | intros ?; congruence]..].
  unfold app. rewrite Hroute.
  apply (users_never_removed (Register now salt data)).
Qed.

End authorization.

(** ** The read-only routes *)

Section reads.
Context `{!Externals}.

Lemma create_driver_answer (now : Z) (u : Z * User.t) (data : DriverJson.t)
    (st st' : Store) (msg : string) (driver : Z * Driver.t) (code : Z) :
  create_driver now u data st = (st', (JDriver msg driver, code)) →
  drivers st' !! driver.1 = Some driver.2.
Proof.
  unfold create_driver, try_except, required.
  destruct (DriverJson.driver_name data); [|by intros [=]].
  destruct (DriverJson.phone_no data); [|by intros [=]].
  destruct (DriverJson.vehicle_name data); [|by intros [=]].
  destruct (DriverJson.vehicle_type data); [|by intros [=]].
  destruct (DriverJson.vehicle_id data); [|by intros [=]].
  destruct (first _); [by intros [=]|].
  intros [= <- <- <- <-]. apply lookup_insert_eq.
Qed.

Lemma update_driver_answer (u : Z * User.t) (driver_id : Z)
    (data : DriverJson.t) (st st' : Store) (msg : string)
    (driver : Z * Driver.t) (code : Z) :
  update_driver u driver_id data st = (st', (JDriver msg driver, code)) →
  drivers st' !! driver.1 = Some driver.2.
Proof.
  unfold update_driver, try_except.
  destruct (drivers st !! driver_id); [|by intros [=]].
  intros [= <- <- <- <-]. apply lookup_insert_eq.
Qed.

(** X21.  Reading back: the driver that [create_driver] or
    [update_driver] returns is the driver [get_driver] answers for its id
    in the store they leave; after a [delete_driver] that answered 200,
    [get_driver] answers 404 for the id. *)
Theorem get_driver_reads_back (st st' : Store) (u : Z * User.t) :
  (∀ now data msg driver code,
     create_driver now u data st = (st', (JDriver msg driver, code)) →
     get_driver driver.1 st' = (st', (RDriver driver, 200))) ∧
  (∀ driver_id data msg driver code,
     update_driver u driver_id data st = (st', (JDriver msg driver, code)) →
     get_driver driver.1 st' = (st', (RDriver driver, 200))) ∧
  (∀ driver_id body,
     delete_driver u driver_id st = (st', (body, 200)) →
     get_driver driver_id st'
     = (st', (RJson (JError "Driver not found"), 404))).
Proof.
  unfold get_driver, try_except_read. split_and!.
  - intros now data msg [i d] code Hans.
    by rewrite (create_driver_answer _ _ _ _ _ _ _ _ Hans).
  - intros driver_id data msg [i d] code Hans.
    by rewrite (update_driver_answer _ _ _ _ _ _ _ _ Hans).
  - intros driver_id body. unfold delete_driver, try_except.
    destruct (drivers st !! driver_id); [|by intros [=]].
    intros [= <- <-]. simpl. by rewrite lookup_delete_eq.
Qed.

(** X22.  The routes of [app_read] write nothing.  In particular a
    logout invalidates no token: every later request is answered as if
    the logout had not been made. *)
Theorem app_read_writes_nothing (now : Z) (header : option string)
    (r : ReadRoute) (st : Store) :
  (app_read now header r st).1 = st ∧
  ∀ now' salt req,
    app now' salt req (app_read now header POST_logout st).1
    = app now' salt req st.
Proof.
  assert (∀ r', (app_read now header r' st).1 = st) as Hstore.
  { intros r'. unfold app_read.
    destruct r' as [| | vehicle_type is_available | driver_id | ride_id | |].
    - by destruct (token_required_as_resolves
                     (λ resp : Response, (RJson resp.1, resp.2))
                     now header logout st) as [[msg ->] | (u & _ & ->)].
    - by destruct (token_required_as_resolves
                     (λ resp : Response, (RJson resp.1, resp.2))
                     now header get_profile st) as [[msg ->] | (u & _ & ->)].
    - done.
    - unfold get_driver, try_except_read. by destruct (drivers st !! driver_id).
    - unfold get_ride, try_except_read. by destruct (rides st !! ride_id).
    - by destruct (token_required_as_resolves
                     (λ resp : Response, (RJson resp.1, resp.2))
                     now header farmer_dashboard st)
        as [[msg ->] | (u & _ & ->)].
    - done. }
  split; [apply Hstore|]. intros now' salt req. by rewrite Hstore.
Qed.



End reads.

(** ** From login to a booking *)

Section session.
Context `{!Externals}.

(** X24.  The token of a successful login, sent as 'Bearer <token>' while
    it still decodes to the id it was issued for, makes the booking route
    run [book_ride] for the user that logged in. *)
Theorem login_token_books (now now' : Z) (salt : string)
    (data : LoginJson.t) (st st' : Store) (msg token : string)
    (user : User.dict) (ride_id : Z) :
  login now data st = (st', (JLogin msg token user, 200)) →
  ¬ occurs " " token → token ≠ "" →
  (∃ claims, jwt_decode now' token = Payload claims ∧
             claim_user_id claims = User.d_user_id user) →
  ∃ u,
    users st !! u.1 = Some u.2 ∧
    User.to_dict u = user ∧
    app now' salt {| authorization := Some ("Bearer " +:+ token);
                     route := POST_rides_book ride_id |} st
    = book_ride u ride_id st.
Proof.
  intros Hlogin Hspace Hempty (claims & Hdecode & Hid).
  unfold login, try_except in Hlogin.
  destruct (LoginJson.username data) as [name|]; [|by simplify_eq].
  destruct (LoginJson.password data) as [password|]; [|by simplify_eq].
  destruct (first (filter_by (λ u, User.username u = name) _))
    as [[i row]|] eqn:E; [|by simplify_eq].
  apply first_filter_by_Some in E as [Hrow _]. simpl in *.
  destruct (check_password_hash _ _); [|by simplify_eq].
  injection Hlogin as <- _ _ <-. simpl in Hid.
  exists (i, row). split; [done|]. split; [done|].
  unfold app, token_required. cbn [route authorization].
  change ("Bearer " +:+ token) with (join " " ["Bearer"; token]).
  rewrite split_join.
  - cbn [lookup list_lookup]. rewrite decide_False by done.
    by rewrite Hdecode, Hid, Hrow.
  - done.
  - repeat constructor; [|done]. simpl. intros Hin.
    repeat (destruct Hin as [Hin|Hin]; [discriminate Hin|]). exact Hin.
Qed.

End session.

(** ** Runs on the sample data *)

(** The calls of [market_trace] are permitted one after the other. *)
Ltac market_reachable :=
  apply reachable_run_all; [constructor|];
  cbv [all_allowed market_trace permitted authenticated];
  split_and!; try exact I; vm_compute; reflexivity.

(** A literal word has no space. *)
Ltac no_space :=
  let Hin := fresh "Hin" in
  simpl; intros Hin;
  repeat (destruct Hin as [Hin|Hin]; [discriminate Hin|]); exact Hin.

Lemma users_unique_reachable_witness :
  @reachable stub_externals market_store ∧ users_unique market_store.
Proof.
  assert (@reachable stub_externals market_store) as Hreach
    by market_reachable.
  split; [exact Hreach|].
  exact (@users_unique_reachable stub_externals market_store Hreach).
Defined.

Lemma vehicle_ids_unique_reachable_witness :
  @reachable stub_externals market_store ∧ vehicle_ids_unique market_store.
Proof.
  assert (@reachable stub_externals market_store) as Hreach
    by market_reachable.
  split; [exact Hreach|].
  exact (@vehicle_ids_unique_reachable stub_externals market_store Hreach).
Defined.

Lemma rides_refer_reachable_witness :
  @reachable stub_externals market_store ∧ rides_refer market_store.
Proof.
  assert (@reachable stub_externals market_store) as Hreach
    by market_reachable.
  split; [exact Hreach|].
  exact (@rides_refer_reachable stub_externals market_store Hreach).
Defined.

Lemma bookings_refer_reachable_witness :
  @reachable stub_externals market_store ∧
  bookings_refer market_store ∧
  ∃ r, rides market_store !! 1 = Some r ∧ Ride.user_id r = Some 2.
Proof.
  assert (@reachable stub_externals market_store) as Hreach
    by market_reachable.
  split; [exact Hreach|]. split.
  - exact (@bookings_refer_reachable stub_externals market_store Hreach).
  - exists (a_ride 1 (Some 2) (Date 2024 3 2) (Time 8 0 0 0) "booked" 10).
    split; vm_compute; reflexivity.
Defined.

Lemma create_ride_contract_witness :
  ∃ ride,
    create_ride 40 admin ride_body sample_store
    = ({| users := users sample_store; drivers := drivers sample_store;
          rides := <[4 := ride]> (rides sample_store) |},
       (JRide "Ride created successfully" (4, ride), 201)) ∧
    Ride.user_id ride = None ∧
    Ride.ride_status ride = "available" ∧
    Ride.vehicle_id ride = "MH15-TR-1234".
Proof.
  destruct (proj2 (proj2 (create_ride_contract 40 admin ride_body
                            sample_store 1 march_2 march_2_8am
                            "Nashik Market" "Trimbakeshwar"
                            eq_refl eq_refl eq_refl eq_refl eq_refl)
                     ltac:(unfold sqlite_integer; lia))
              suresh (Date 2024 3 2) (Time 0 0 0 0) (Date 2024 3 2)
              (Time 8 0 0 0) eq_refl eq_refl eq_refl)
    as (ride & Hcreate & _ & _ & Huser & Hstatus & _ & _ & Hvid & _).
  exists ride. split_and!; done.
Defined.

Lemma create_driver_contract_witness :
  create_driver 40 admin suresh_body sample_store
  = (sample_store, (JError "Vehicle ID already exists", 409)) ∧
  ∃ driver,
    create_driver 40 admin suresh_body empty_store
    = ({| users := ∅; drivers := <[1 := driver]> ∅; rides := ∅ |},
       (JDriver "Driver created successfully" (1, driver), 201)) ∧
    Driver.is_available driver = true ∧
    Driver.vehicle_photo driver = "default-vehicle.jpg".
Proof.
  split.
  - apply (proj1 (create_driver_contract 40 admin suresh_body sample_store
                    "Suresh Jadhav" "9876543220" "John Deere 5050D" "tractor"
                    "MH15-TR-1234" eq_refl eq_refl eq_refl eq_refl eq_refl)
             1 suresh); reflexivity.
  - destruct (proj2 (create_driver_contract 40 admin suresh_body empty_store
                       "Suresh Jadhav" "9876543220" "John Deere 5050D"
                       "tractor" "MH15-TR-1234"
                       eq_refl eq_refl eq_refl eq_refl eq_refl))
      as (driver & Hcreate & _ & _ & Havailable & Hphoto & _).
    + intros i d Hid. simpl in Hid. by rewrite lookup_empty in Hid.
    + exists driver. split_and!; done.
Defined.

Lemma update_ride_frame_witness :
  ∃ updated,
    update_ride admin 3 (status_patch "completed") sample_store
    = ({| users := users sample_store; drivers := drivers sample_store;
          rides := <[3 := updated]> (rides sample_store) |},
       (JRide "Ride updated successfully" (3, updated), 200)) ∧
    Ride.user_id updated = Some 2 ∧
    Ride.driver_id updated = 1.
Proof.
  destruct (update_ride_frame admin 3 (status_patch "completed") sample_store
              ride3 eq_refl)
    as [[msg Hfail] | (updated & Hupd & Horigin & Hkeep & _)].
  - vm_compute in Hfail. discriminate Hfail.
  - exists updated. split; [exact Hupd|]. split.
    + rewrite Hkeep; [reflexivity | discriminate].
    + by destruct Horigin as (-> & _).
Defined.

Lemma book_ride_moves_counts_witness :
  ∃ stats stats' recent recent',
    admin_dashboard admin sample_store
    = (sample_store, (JAdminDashboard stats recent, 200)) ∧
    admin_dashboard admin (book_ride ramesh 1 sample_store).1
    = ((book_ride ramesh 1 sample_store).1,
       (JAdminDashboard stats' recent', 200)) ∧
    available_rides stats = S (available_rides stats') ∧
    booked_rides stats' = S (booked_rides stats).
Proof.
  destruct (book_ride_moves_counts ramesh admin 1 sample_store
              (book_ride ramesh 1 sample_store).1
              (book_ride ramesh 1 sample_store).2.1 eq_refl)
    as (stats & stats' & recent & recent' & H1 & H2 & H3 & H4 & _).
  by exists stats, stats', recent, recent'.
Defined.

Lemma token_required_second_word_witness :
  @token_required badge_externals 100 (Some "Bearer token-of-ramesh")
    (λ u, book_ride u 1) sample_store
  = @token_required badge_externals 100 (Some "Basic token-of-ramesh now")
      (λ u, book_ride u 1) sample_store.
Proof.
  apply (@token_required_second_word badge_externals 100
           ["Bearer"; "token-of-ramesh"] ["Basic"; "token-of-ramesh"; "now"]).
  - discriminate.
  - discriminate.
  - repeat constructor; no_space.
  - repeat constructor; no_space.
  - reflexivity.
Defined.


Lemma app_without_user_witness :
  drivers (@app badge_externals 100 "salt" stranger_deletes_driver
             sample_store).1
  = drivers sample_store ∧
  rides (@app badge_externals 100 "salt" stranger_deletes_driver
           sample_store).1
  = rides sample_store.
Proof.
  apply (@app_without_user badge_externals).
  intros u (header & token & data & Hheader & Hsplit & _ & Hdecode & _).
  injection Hheader as <-. vm_compute in Hsplit. injection Hsplit as <-.
  vm_compute in Hdecode. discriminate Hdecode.
Defined.

Lemma app_without_admin_witness :
  drivers (@app badge_externals 100 "salt" farmer_deletes_driver
             sample_store).1
  = drivers sample_store ∧
  dom (rides (@app badge_externals 100 "salt" farmer_deletes_driver
                sample_store).1)
  = dom (rides sample_store).
Proof.
  destruct (@app_without_admin badge_externals 100 "salt"
              farmer_deletes_driver sample_store) as (Hdrivers & Hdom & _);
    [|by split].
  intros [i row] (header & token & data & Hheader & Hsplit & _ & Hdecode
                  & Hid & Hrow).
  injection Hheader as <-. vm_compute in Hsplit. injection Hsplit as <-.
  vm_compute in Hdecode. injection Hdecode as <-. simpl in *. subst i.
  vm_compute in Hrow. by injection Hrow as <-.
Defined.

Lemma login_token_books_witness :
  ∃ u,
    users sample_store !! u.1 = Some u.2 ∧
    User.to_dict u = User.to_dict ramesh ∧
    @app badge_externals 100 "salt"
      {| authorization := Some "Bearer token-of-ramesh";
         route := POST_rides_book 1 |} sample_store
    = book_ride u 1 sample_store.
Proof.
  apply (@login_token_books badge_externals 0 100 "salt"
           {| LoginJson.username := Some "ramesh";
              LoginJson.password := Some "farmer123" |}
           sample_store sample_store "Login successful" "token-of-ramesh"
           (User.to_dict ramesh) 1).
  - vm_compute. reflexivity.
  - no_space.
  - discriminate.
  - eexists. split; reflexivity.
Defined.

